(** * goa: structured errors and the wire types of HTTP servers

    The first part of this development embeds [error.go]: the structured
    error [HTTPError], the error classes built by [NewErrorClass], the
    aggregate [MultiError] with its derived [Status], and [StackErrors].
    The second part is about the server side body types, validators and
    payload constructors whose expected text is recorded in
    [http/codegen/server_types_test.go]. *)

From Stdlib Require Import ZArith Lia.
From stdpp Require Import base option list strings gmap.

Local Open Scope string_scope.
Local Open Scope list_scope.
Local Open Scope Z_scope.

(** ** Run-time panics

    Go code that dereferences a nil pointer or assigns into a nil map does
    not return: it panics.  A computation of the embedding either returns
    a value or panics. *)

Inductive panic : Type :=
| NilDereference       (* invalid memory address or nil pointer dereference *)
| NilMapAssignment.    (* assignment to entry in nil map *)

Inductive outcome (A : Type) : Type :=
| Ret (a : A)
| Panic (p : panic).

Arguments Ret {A} a.
Arguments Panic {A} p.

#[global] Instance outcome_ret : MRet outcome := fun A a => Ret a.
#[global] Instance outcome_bind : MBind outcome := fun A B f m =>
  match m with
  | Ret a => f a
  | Panic p => Panic p
  end.

Definition returns {A : Type} (m : outcome A) : Prop := ∃ a, m = Ret a.

(** [*p] for a pointer [p]; [None] is the nil pointer. *)
Definition deref {A : Type} (p : option A) : outcome A :=
  match p with
  | Some a => Ret a
  | None => Panic NilDereference
  end.

Module Goa.

(** ** Data of error.go *)

(** A value of the empty interface, as far as the error primitives look at
    it: they only print such values. *)
Inductive any : Type :=
| AnyNil
| AnyString (s : string)
| AnyInt (n : Z)
| AnyStringer (s : string)     (* a fmt.Stringer whose String() gives [s] *)
| AnyOpaque (repr : string).   (* anything else *)

(** [HTTPError].  [Status] is a Go [int]; no arithmetic is done on it, so it
    is an integer here.  [MetaValues] is a Go map: [None] is the nil map. *)
Record HTTPError : Type := mkHTTPError {
  Code : string;
  Status : Z;
  Detail : string;
  MetaValues : option (gmap string any)
}.

(** A value of the interface [error].  [ErrNil] is the nil interface;
    [ErrHTTP p] holds a [*HTTPError] (possibly the nil pointer);
    [ErrMulti m] holds a [MultiError]; [ErrOther msg] is any other
    implementation, whose [Error()] gives [msg]. *)
#[warnings="-register-all"]
Inductive error : Type :=
| ErrNil
| ErrHTTP (p : option HTTPError)
| ErrMulti (m : list error)
| ErrOther (msg : string).

(** [type MultiError []error] *)
Abbreviation MultiError := (list error).

(** The first argument of an [ErrorClass]: the type switch of
    [NewErrorClass] tells an error apart from every other value. *)
Inductive format : Type :=
| FmtError (e : error)
| FmtAny (a : any).

(** ** Operations of error.go *)

(** [strings.Join] *)
Fixpoint Join (elems : list string) (sep : string) : string :=
  match elems with
  | [] => ""
  | [s] => s
  | s :: rest => s +:+ sep +:+ Join rest sep
  end.

(** [func (e *HTTPError) Error() string] *)
Definition HTTPError_Error (e : option HTTPError) : outcome string :=
  he ← deref e; Ret (Detail he).

(** The method [Error()] of an [error] value; for a [MultiError] it is
    [func (m MultiError) Error() string], which joins the messages of the
    entries with a comma. *)
Fixpoint error_Error (e : error) : outcome string :=
  match e with
  | ErrNil => Panic NilDereference
  | ErrHTTP p => HTTPError_Error p
  | ErrMulti m =>
      errs ← (fix each (l : list error) : outcome (list string) :=
                match l with
                | [] => Ret []
                | x :: l' => s ← error_Error x; ss ← each l'; Ret (s :: ss)
                end) m;
      Ret (Join errs ", ")
  | ErrOther msg => Ret msg
  end.

Definition MultiError_Error (m : MultiError) : outcome string :=
  error_Error (ErrMulti m).

(** The loop of [Status] over [m[1:]], with the running [status]. *)
Fixpoint Status_loop (es : list error) (status : Z) : outcome Z :=
  match es with
  | [] => Ret status
  | e :: es' =>
      match e with
      | ErrHTTP p =>
          he ← deref p;
          if Status he =? 500 then Ret 500
          else Status_loop es' (if Status he =? status then status else 400)
      | _ => Ret 500
      end
  end.

(** [func (m MultiError) Status() int] *)
Definition MultiError_Status (m : MultiError) : outcome Z :=
  match m with
  | [] => Ret 500
  | e0 :: rest =>
      match e0 with
      | ErrHTTP p =>
          he ← deref p;
          let status := Status he in
          match rest with
          | [] => Ret status
          | _ :: _ => Status_loop rest status
          end
      | _ => Ret 500
      end
  end.

(** [func StackErrors(err error, err2 error) error] *)
Definition StackErrors (err err2 : error) : error :=
  match err with
  | ErrNil =>
      match err2 with
      | ErrNil => ErrMulti []
      | ErrMulti _ => err2
      | _ => ErrMulti [err2]
      end
  | _ =>
      let (merr, ok) :=
        match err with ErrMulti m => (m, true) | _ => ([], false) end in
      match err2 with
      | ErrNil => if ok then ErrMulti merr else ErrMulti [err]
      | _ =>
          let (merr2, ok2) :=
            match err2 with ErrMulti m => (m, true) | _ => ([], false) end in
          if ok then
            if ok2 then ErrMulti (merr ++ merr2) else ErrMulti (merr ++ [err2])
          else
            let merr := [err] in
            if ok2 then ErrMulti (merr ++ merr2) else ErrMulti (merr ++ [err2])
      end
  end.

(** The entries an argument of [StackErrors] stands for. *)
Definition entries (e : error) : list error :=
  match e with
  | ErrNil => []
  | ErrMulti m => m
  | _ => [e]
  end.

(** The aggregate whose entries are the given (non-nil) [*HTTPError]s. *)
Definition of_http (hs : list HTTPError) : MultiError :=
  map (λ h, ErrHTTP (Some h)) hs.

(** An [HTTPError] of the given status, for examples. *)
Definition http (status : Z) : HTTPError :=
  {| Code := "code"; Status := status; Detail := "detail";
     MetaValues := None |}.

Section Printing.

(** [fmt.Sprintf] belongs to the Go library; the error primitives only pass
    strings through it. *)
Variable Sprintf : string → list any → string.

(** [func NewErrorClass(code string, status int) ErrorClass]: the class is
    the function of [fm] and [v]; it returns a pointer to a new
    [HTTPError], whose [MetaValues] is not set. *)
Definition NewErrorClass (code : string) (status : Z)
    (fm : format) (v : list any) : outcome HTTPError :=
  f ← match fm with
      | FmtAny (AnyString actual) => Ret actual
      | FmtError ErrNil => Ret (Sprintf "%v" [AnyNil])   (* the default case *)
      | FmtError actual => error_Error actual
      | FmtAny (AnyStringer actual) => Ret actual
      | FmtAny actual => Ret (Sprintf "%v" [actual])
      end;
  Ret {| Code := code; Status := status; Detail := Sprintf f v;
         MetaValues := None |}.

(** The loop of [Meta], [for i := 0; i < len(keyvals); i += 2], with the
    index [i] and the receiver [e]; the body assigns into [e.MetaValues].
    [fuel] bounds the number of iterations. *)
Fixpoint Meta_loop (fuel : nat) (i : nat) (keyvals : list any)
    (e : option HTTPError) : outcome (option HTTPError) :=
  match fuel with
  | O => Ret e
  | S fuel' =>
      match keyvals !! i with
      | None => Ret e                            (* i >= len(keyvals) *)
      | Some k =>
          let v := match keyvals !! (i + 1)%nat with
                   | Some v => v
                   | None => AnyString "MISSING"
                   end in
          he ← deref e;
          match MetaValues he with
          | None => Panic NilMapAssignment
          | Some m =>
              Meta_loop fuel' (i + 2)%nat keyvals
                (Some {| Code := Code he; Status := Status he;
                         Detail := Detail he;
                         MetaValues := Some (<[Sprintf "%v" [k] := v]> m) |})
          end
      end
  end.

(** [func (e *HTTPError) Meta(keyvals ...interface{}) *HTTPError]: the
    receiver is updated in place and returned.  The loop runs at most
    [len(keyvals)] times. *)
Definition HTTPError_Meta (e : option HTTPError) (keyvals : list any)
    : outcome (option HTTPError) :=
  Meta_loop (length keyvals) 0 keyvals e.

End Printing.

End Goa.

Module Codegen.

(** ** The generated text

    [server_types_test.go] compares the text that [serverType] produces for
    a design with an expected Go source text: type declarations, then the
    functions that build a payload from a request body, then the
    validation functions.  The expected texts are recorded here as
    syntax; comments, result types and the functions that build response
    bodies are left out. *)

(** A Go type expression of a field declaration. *)
Inductive gotype : Type :=
| GAny                         (* any *)
| GBasic (name : string)       (* int, uint, float32, string, byte, ... *)
| GPtr (t : gotype)            (* *T *)
| GSlice (t : gotype)          (* []T *)
| GMap (k v : gotype)          (* map[K]V *)
| GNamed (name : string).      (* a type declared by the same text *)

(** A struct field [Name T `form:"wire,omitempty" json:... xml:...`]. *)
Record gofield : Type := GoField {
  gf_name : string;
  gf_type : gotype;
  gf_wire : string;
  gf_omitempty : bool
}.

Inductive typedecl : Type :=
| StructDecl (name : string) (fields : list gofield)  (* type N struct {..} *)
| SliceDecl (name : string) (elem : gotype).          (* type N []T *)



(** A validation rule of an attribute. *)
Inductive rule : Type :=
| Pattern (re : string)
| Format (f : string)
| Minimum (n : Z)
| Maximum (n : Z)
| MinLength (n : nat)
| MaxLength (n : nat)
| Enum (vals : list string).

(** One statement of a validation function.  [F] is what a call names:
    a function name in the text, the called function itself once calls
    are resolved.
    - [MissingField F w]:
      [if body.F == nil { err = goa.MergeErrors(err, goa.MissingFieldError("w", "body")) }]
    - [Constraint guarded deref F w r]:
      [err = goa.MergeErrors(err, goa.ValidateR("body.w", *body.F, ..))],
      inside [if body.F != nil { .. }] when [guarded], on [*body.F] when
      [deref] and on [body.F] otherwise
    - [Nested F callee]:
      [if body.F != nil { if err2 := callee(body.F); err2 != nil { err = goa.MergeErrors(err, err2) } }] *)
Inductive check (F : Type) : Type :=
| MissingField (field wire : string)
| Constraint (guarded deref : bool) (field wire : string) (r : rule)
| Nested (field : string) (callee : F).

Arguments MissingField {F} field wire.
Arguments Constraint {F} guarded deref field wire r.
Arguments Nested {F} field callee.

(** One assignment of a payload constructor.
    - [Copy F]: [F: body.F] in the composite literal
    - [Deref F]: [F: *body.F] in the composite literal
    - [CopySlice guarded F]: [v.F = make([]T, len(body.F))] and a loop
      assigning [v.F[i] = val]
    - [CopyMap guarded F]: [v.F = make(map[K]V, len(body.F))] and a loop
      assigning [v.F[tk] = tv]
    - [Delegate guarded F callee]: [v.F = callee(body.F)]
    - [Param F p]: [v.F = p], [p] a parameter other than the body
    A [guarded] statement is inside [if body.F != nil { .. }]. *)
Inductive assign (F : Type) : Type :=
| Copy (field : string)
| Deref (field : string)
| CopySlice (guarded : bool) (field : string)
| CopyMap (guarded : bool) (field : string)
| Delegate (guarded : bool) (field : string) (callee : F)
| Param (field : string) (param : string).

Arguments Copy {F} field.
Arguments Deref {F} field.
Arguments CopySlice {F} guarded field.
Arguments CopyMap {F} guarded field.
Arguments Delegate {F} guarded field callee.
Arguments Param {F} field param.

(** [func c_name(body *c_body, c_params...) *Payload] *)
Record constructor : Type := Constructor {
  c_name : string;
  c_body : option string;
  c_params : list (string * gotype);
  c_assigns : list (assign string)
}.

(** [func v_name(body *v_body) (err error)] *)
Record validator : Type := Validator {
  v_name : string;
  v_body : string;
  v_checks : list (check string)
}.

Record file : Type := File {
  types : list typedecl;
  inits : list constructor;
  validators : list validator
}.

(** *** The expected texts of [TestServerTypes] *)

Definition unmarshalBPayload : string :=
  "unmarshalBPayloadRequestBodyToServicemixedpayloadinbodyBPayload".

Definition MixedPayloadInBodyServerTypesFile : file := {|
  types := [
    StructDecl "MethodARequestBody" [
      GoField "Any" GAny "any" true;
      GoField "Array" (GSlice (GBasic "float32")) "array" true;
      GoField "Map" (GMap (GBasic "uint") GAny) "map" true;
      GoField "Object" (GPtr (GNamed "BPayloadRequestBody")) "object" true;
      GoField "DupObj" (GPtr (GNamed "BPayloadRequestBody")) "dup_obj" true ];
    StructDecl "BPayloadRequestBody" [
      GoField "Int" (GPtr (GBasic "int")) "int" true;
      GoField "Bytes" (GSlice (GBasic "byte")) "bytes" true ] ];
  inits := [
    {| c_name := "NewMethodAAPayload";
       c_body := Some "MethodARequestBody";
       c_params := [];
       c_assigns := [
         Copy "Any";
         CopySlice false "Array";
         CopyMap true "Map";
         Delegate false "Object" unmarshalBPayload;
         Delegate true "DupObj" unmarshalBPayload ] |} ];
  validators := [
    {| v_name := "ValidateMethodARequestBody";
       v_body := "MethodARequestBody";
       v_checks := [
         MissingField "Array" "array";
         MissingField "Object" "object";
         Nested "Object" "ValidateBPayloadRequestBody";
         Nested "DupObj" "ValidateBPayloadRequestBody" ] |};
    {| v_name := "ValidateBPayloadRequestBody";
       v_body := "BPayloadRequestBody";
       v_checks := [ MissingField "Int" "int" ] |} ]
|}.

Definition MultipleMethodsServerTypesFile : file := {|
  types := [
    StructDecl "MethodARequestBody" [
      GoField "A" (GPtr (GBasic "string")) "a" true ];
    StructDecl "MethodBRequestBody" [
      GoField "A" (GPtr (GBasic "string")) "a" true;
      GoField "B" (GPtr (GBasic "string")) "b" true;
      GoField "C" (GPtr (GNamed "APayloadRequestBody")) "c" true ];
    StructDecl "APayloadRequestBody" [
      GoField "A" (GPtr (GBasic "string")) "a" true ] ];
  inits := [
    {| c_name := "NewMethodAAPayload";
       c_body := Some "MethodARequestBody";
       c_params := [];
       c_assigns := [ Copy "A" ] |};
    {| c_name := "NewMethodBPayloadType";
       c_body := Some "MethodBRequestBody";
       c_params := [];
       c_assigns := [
         Deref "A";
         Copy "B";
         Delegate false "C"
           "unmarshalAPayloadRequestBodyToServicemultiplemethodsAPayload" ] |} ];
  validators := [
    {| v_name := "ValidateMethodARequestBody";
       v_body := "MethodARequestBody";
       v_checks := [ Constraint true true "A" "a" (Pattern "patterna") ] |};
    {| v_name := "ValidateMethodBRequestBody";
       v_body := "MethodBRequestBody";
       v_checks := [
         MissingField "A" "a";
         MissingField "C" "c";
         Constraint true true "A" "a" (Pattern "patterna");
         Constraint true true "B" "b" (Pattern "patternb");
         Nested "C" "ValidateAPayloadRequestBody" ] |};
    {| v_name := "ValidateAPayloadRequestBody";
       v_body := "APayloadRequestBody";
       v_checks := [ Constraint true true "A" "a" (Pattern "patterna") ] |} ]
|}.

Definition PayloadExtendedValidateServerTypesFile : file := {|
  types := [
    StructDecl "MethodQueryStringExtendedValidatePayloadRequestBody" [
      GoField "Body" (GPtr (GBasic "string")) "body" true ] ];
  inits := [
    {| c_name := "NewMethodQueryStringExtendedValidatePayloadPayload";
       c_body := Some "MethodQueryStringExtendedValidatePayloadRequestBody";
       c_params := [("q", GBasic "string"); ("h", GBasic "int")];
       c_assigns := [ Deref "Body"; Param "Q" "q"; Param "H" "h" ] |} ];
  validators := [
    {| v_name := "ValidateMethodQueryStringExtendedValidatePayloadRequestBody";
       v_body := "MethodQueryStringExtendedValidatePayloadRequestBody";
       v_checks := [ MissingField "Body" "body" ] |} ]
|}.

Definition ResultTypeValidateServerTypesFile : file := {|
  types := [
    StructDecl "MethodResultTypeValidateResponseBody" [
      GoField "A" (GPtr (GBasic "string")) "a" true ] ];
  inits := [];
  validators := []
|}.

Definition ResultWithResultCollectionServerTypesFile : file := {|
  types := [
    StructDecl "MethodResultWithResultCollectionResponseBody" [
      GoField "A" (GPtr (GNamed "ResulttypeResponseBody")) "a" true ];
    StructDecl "ResulttypeResponseBody" [
      GoField "X" (GNamed "RtCollectionResponseBody") "x" true ];
    SliceDecl "RtCollectionResponseBody" (GPtr (GNamed "RtResponseBody"));
    StructDecl "RtResponseBody" [
      GoField "X" (GPtr (GBasic "string")) "x" true ] ];
  inits := [];
  validators := []
|}.

Definition ResultWithResultViewServerTypesFile : file := {|
  types := [
    StructDecl "MethodResultWithResultViewResponseBodyFull" [
      GoField "Name" (GPtr (GBasic "string")) "name" true;
      GoField "Rt" (GPtr (GNamed "RtResponseBody")) "rt" true ];
    StructDecl "RtResponseBody" [
      GoField "X" (GPtr (GBasic "string")) "x" true ] ];
  inits := [];
  validators := []
|}.

(** The expected text of the case "server-empty-error-response-body" is
    the empty string. *)
Definition EmptyErrorResponseBodyServerTypesFile : file :=
  {| types := []; inits := []; validators := [] |}.

Definition WithErrorCustomPkgServerTypesFile : file := {|
  types := [
    StructDecl "MethodWithErrorCustomPkgErrorNameResponseBody" [
      GoField "Name" (GBasic "string") "name" false ] ];
  inits := [];
  validators := []
|}.

Definition BodyCustomNameServerTypesFile : file := {|
  types := [
    StructDecl "MethodBodyCustomNameRequestBody" [
      GoField "Body" (GPtr (GBasic "string")) "b" true ] ];
  inits := [
    {| c_name := "NewMethodBodyCustomNamePayload";
       c_body := Some "MethodBodyCustomNameRequestBody";
       c_params := [];
       c_assigns := [ Copy "Body" ] |} ];
  validators := []
|}.

Definition PathCustomNameServerTypesFile : file := {|
  types := [];
  inits := [
    {| c_name := "NewMethodPathCustomNamePayload";
       c_body := None;
       c_params := [("p", GBasic "string")];
       c_assigns := [ Param "Path" "p" ] |} ];
  validators := []
|}.

Definition QueryCustomNameServerTypesFile : file := {|
  types := [];
  inits := [
    {| c_name := "NewMethodQueryCustomNamePayload";
       c_body := None;
       c_params := [("q", GPtr (GBasic "string"))];
       c_assigns := [ Param "Query" "q" ] |} ];
  validators := []
|}.

Definition HeaderCustomNameServerTypesFile : file := {|
  types := [];
  inits := [
    {| c_name := "NewMethodHeaderCustomNamePayload";
       c_body := None;
       c_params := [("h", GPtr (GBasic "string"))];
       c_assigns := [ Param "Header" "h" ] |} ];
  validators := []
|}.

Definition CookieCustomNameServerTypesFile : file := {|
  types := [];
  inits := [
    {| c_name := "NewMethodCookieCustomNamePayload";
       c_body := None;
       c_params := [("c2", GPtr (GBasic "string"))];
       c_assigns := [ Param "Cookie" "c2" ] |} ];
  validators := []
|}.

(** ** The design (Attribute Schema Model) *)

(** Modelled from the spec: the primitive kinds of package [expr], which is
    not among the sources; the kinds that the expected texts use. *)
Inductive prim : Type :=
| BooleanKind | IntKind | UIntKind | Float32Kind | StringKind
| BytesKind | AnyKind.

(** Modelled from the spec: an attribute of the design (section 3; package
    [expr] is not among the sources).  It has a wire name, a Go identifier
    (what [codegen.Goify] makes of its name), a required flag, validation
    rules and a type. *)
Record attribute (T : Type) : Type := Attribute {
  att_name : string;
  att_goname : string;
  att_required : bool;
  att_rules : list rule;
  att_type : T
}.

Arguments Attribute {T} _ _ _ _ _.
Arguments att_name {T} _.
Arguments att_goname {T} _.
Arguments att_required {T} _.
Arguments att_rules {T} _.
Arguments att_type {T} _.

(** Modelled from the spec: the type of an attribute (section 3; package
    [expr] is not among the sources).  The model covers the types that
    occur in the bodies of the expected texts: primitives, arrays and maps
    of primitives, and user types that are objects. *)
#[warnings="-register-all"]
Inductive dtype : Type :=
| Prim (k : prim)
| Array (elem : prim)
| Map (key elem : prim)
| UserType (name : string) (atts : list (attribute dtype)).

Abbreviation field := (attribute dtype).

(** The role of a body. *)
Inductive role : Type := Request | Response.

#[global] Instance role_eq_dec : EqDecision role.
Proof. solve_decision. Defined.

(** Modelled from the spec: the result of a method, that is the attributes
    of its body and the Go identifier of the view it is rendered with, if
    it is not the default one. *)
Record result : Type := Result {
  res_atts : list field;
  res_view : option string
}.

(** Modelled from the spec: a method (package [expr] is not among the
    sources).  It has a Go identifier, the name its payload goes by in the
    name of the constructor, the attributes of the request body (if it has
    one), the payload attributes carried by the path, the query, the
    headers and the cookies (Go identifier, parameter name, parameter
    type), its result (if it has a body) and its named errors (Go
    identifier of the error, attributes of its body). *)
Record method : Type := Method {
  m_name : string;
  m_payload : string;
  m_body : option (list field);
  m_params : list (string * string * gotype);
  m_result : option result;
  m_errors : list (string * list field)
}.

(** Modelled from the spec: a service, the generation unit (section 3):
    the Go identifier of its package and its methods. *)
Record service : Type := Service {
  s_pkg : string;
  s_methods : list method
}.

(** ** The generator

    [serverType] and the functions it relies on (http/codegen) are not among
    the sources.  The model follows sections 3 and 4.2 to 4.5 of the
    specification; where the expected texts of [server_types_test.go] are
    more specific than the specification or differ from it (which fields
    are pointers, which checks are guarded, the suffix of a view), the
    model follows the expected texts. *)

Definition role_suffix (r : role) : string :=
  match r with
  | Request => "RequestBody"
  | Response => "ResponseBody"
  end.

(** *** Naming (4.3) *)

(** Modelled from the spec: the names of the records (4.3; the naming
    functions of http/codegen are not among the sources).  The view suffix
    is the one of the expected [MethodResultWithResultViewResponseBodyFull]. *)
Definition view_suffix (v : option string) : string :=
  match v with
  | Some view => view
  | None => ""
  end.

Definition request_body_name (m : method) : string :=
  m_name m +:+ role_suffix Request.

Definition response_body_name (m : method) (r : result) : string :=
  m_name m +:+ role_suffix Response +:+ view_suffix (res_view r).

Definition error_body_name (m : method) (err : string) : string :=
  m_name m +:+ err +:+ role_suffix Response.

Definition nested_body_name (r : role) (user : string) : string :=
  user +:+ role_suffix r.

(** *** Body shapes (3, 4.3) *)

Definition prim_gotype (k : prim) : gotype :=
  match k with
  | BooleanKind => GBasic "bool"
  | IntKind => GBasic "int"
  | UIntKind => GBasic "uint"
  | Float32Kind => GBasic "float32"
  | StringKind => GBasic "string"
  | BytesKind => GSlice (GBasic "byte")
  | AnyKind => GAny
  end.

(** A primitive whose Go type has no nil value of its own. *)
Definition scalar (k : prim) : bool :=
  match k with
  | BytesKind | AnyKind => false
  | _ => true
  end.

(** Modelled from the spec: whether a field is declared as a pointer to a
    primitive (section 3 for response bodies, the expected request bodies
    for request bodies; the function of http/codegen that decides it is
    not among the sources).  In a request body every scalar is, required or not, so that the validation can
    tell a missing field; in a response body the scalars that are not
    required are. *)
Definition pointer_field (r : role) (required : bool) (t : dtype) : bool :=
  match t with
  | Prim k =>
      scalar k && match r with Request => true | Response => negb required end
  | _ => false
  end.

Definition field_gotype (r : role) (required : bool) (t : dtype) : gotype :=
  match t with
  | Prim k =>
      if pointer_field r required t then GPtr (prim_gotype k)
      else prim_gotype k
  | Array e => GSlice (prim_gotype e)
  | Map k e => GMap (prim_gotype k) (prim_gotype e)
  | UserType n _ => GPtr (GNamed (nested_body_name r n))
  end.

Definition body_field (r : role) (a : field) : gofield :=
  {| gf_name := att_goname a;
     gf_type := field_gotype r (att_required a) (att_type a);
     gf_wire := att_name a;
     gf_omitempty :=
       match r with Request => true | Response => negb (att_required a) end |}.

(** A body shape that is a record: its name, its role, the attributes it
    is made from and, for a nested shape, the user type it comes from. *)
Record shape : Type := Shape {
  sh_name : string;
  sh_role : role;
  sh_atts : list field;
  sh_user : option string
}.

Definition shape_decl (sh : shape) : typedecl :=
  StructDecl (sh_name sh) (body_field (sh_role sh) <$> sh_atts sh).

(** *** The name registry (4.2)

    The registry is the set of names already given out; [serverType]
    receives it as its argument [seen]. *)

Definition lookupOrReserve (name : string) (seen : gset string)
    : bool * gset string :=
  if decide (name ∈ seen) then (true, seen) else (false, {[name]} ∪ seen).

(** Modelled from the spec: the traversal of 4.3 with the registry of 4.2
    (not among the sources).  It gives the shapes of the user types an
    attribute type refers to, the type itself first, then the types of its attributes in order; a type whose
    name is already in the registry is not descended into again. *)
Fixpoint nested_shapes (r : role) (t : dtype) (seen : gset string)
    : list shape * gset string :=
  match t with
  | UserType n atts =>
      let name := nested_body_name r n in
      let (alreadyExists, seen1) := lookupOrReserve name seen in
      if alreadyExists then ([], seen1)
      else
        let (shs, seen2) :=
          (fix each (l : list field) (seen : gset string) :=
             match l with
             | [] => ([], seen)
             | a :: l' =>
                 let (s1, seen1) := nested_shapes r (att_type a) seen in
                 let (s2, seen2) := each l' seen1 in
                 (s1 ++ s2, seen2)
             end) atts seen1 in
        (Shape name r atts (Some n) :: shs, seen2)
  | _ => ([], seen)
  end.

Fixpoint atts_shapes (r : role) (atts : list field) (seen : gset string)
    : list shape * gset string :=
  match atts with
  | [] => ([], seen)
  | a :: l' =>
      let (s1, seen1) := nested_shapes r (att_type a) seen in
      let (s2, seen2) := atts_shapes r l' seen1 in
      (s1 ++ s2, seen2)
  end.

(** The top-level shape of one body. *)
Definition top_shape (name : string) (r : role) (atts : list field)
    (seen : gset string) : list shape * gset string :=
  let (alreadyExists, seen1) := lookupOrReserve name seen in
  if alreadyExists then ([], seen1)
  else ([Shape name r atts None], seen1).

(** The bodies of a service: the request bodies of its methods, then the
    response bodies, then the bodies of the named errors. *)
Definition bodies (svc : service) : list (string * role * list field) :=
  omap (λ m, (λ atts, (request_body_name m, Request, atts)) <$> m_body m)
       (s_methods svc)
  ++ omap (λ m, (λ res, (response_body_name m res, Response, res_atts res))
                  <$> m_result m)
          (s_methods svc)
  ++ (s_methods svc ≫=
        λ m, (λ e, (error_body_name m e.1, Response, e.2)) <$> m_errors m).

Fixpoint top_shapes (bs : list (string * role * list field))
    (seen : gset string) : list shape * gset string :=
  match bs with
  | [] => ([], seen)
  | (name, r, atts) :: bs' =>
      let (s1, seen1) := top_shape name r atts seen in
      let (s2, seen2) := top_shapes bs' seen1 in
      (s1 ++ s2, seen2)
  end.

Fixpoint bodies_nested_shapes (bs : list (string * role * list field))
    (seen : gset string) : list shape * gset string :=
  match bs with
  | [] => ([], seen)
  | (_, r, atts) :: bs' =>
      let (s1, seen1) := atts_shapes r atts seen in
      let (s2, seen2) := bodies_nested_shapes bs' seen1 in
      (s1 ++ s2, seen2)
  end.

(** Modelled from the spec: all the record shapes of a service (4.3; not
    among the sources), the top-level ones, then the nested ones, in the
    order of the expected texts. *)
Definition shapes (svc : service) (seen : gset string) : list shape :=
  let (tops, seen1) := top_shapes (bodies svc) seen in
  let (nested, _) := bodies_nested_shapes (bodies svc) seen1 in
  tops ++ nested.

(** *** Validation functions (4.4)

    With calls resolved, a validation function is a tree: its name, the
    name of the body type it takes, and its statements, each call holding
    the function it calls. *)

#[warnings="-register-all"]
Inductive vfun : Type :=
| VFun (name : string) (body : string) (checks : list (check vfun)).

Definition vfun_name (f : vfun) : string :=
  match f with VFun n _ _ => n end.

Definition validator_name (body : string) : string := "Validate" +:+ body.

(** (a) one missing-field check per required attribute *)
Definition missing_checks {F : Type} (atts : list field) : list (check F) :=
  omap (λ a, if att_required a
             then Some (MissingField (att_goname a) (att_name a))
             else None) atts.

(** A constraint check is guarded when the attribute is optional, and
    also when the field is a pointer, as every scalar of a request body
    is. *)
Definition constraint_guarded (a : field) : bool :=
  negb (att_required a)
  || pointer_field Request (att_required a) (att_type a).

(** (b) the constraint checks of every attribute *)
Definition constraint_checks {F : Type} (atts : list field) : list (check F) :=
  atts ≫= λ a, Constraint (constraint_guarded a)
                  (pointer_field Request (att_required a) (att_type a))
                  (att_goname a) (att_name a)
                <$> att_rules a.

(** (c) one call into the validation function of every attribute whose
    type has one; [rec] gives the validation function of a type. *)
Definition nested_checks {F : Type} (rec : dtype → option F)
    (atts : list field) : list (check F) :=
  omap (λ a, Nested (att_goname a) <$> rec (att_type a)) atts.

Definition record_checks {F : Type} (rec : dtype → option F)
    (atts : list field) : list (check F) :=
  missing_checks atts ++ constraint_checks atts ++ nested_checks rec atts.

(** Modelled from the spec: the validation function of a record body
    (4.4; the validation synthesis of package codegen is not among the
    sources), with the statements in the order (a), (b), (c); there is
    none when there is nothing to check. *)
Definition record_validator (rec : dtype → option vfun) (body : string)
    (atts : list field) : option vfun :=
  match record_checks rec atts with
  | [] => None
  | checks => Some (VFun (validator_name body) body checks)
  end.

(** The validation function of the request body of a user type. *)
Fixpoint type_validator (t : dtype) : option vfun :=
  match t with
  | UserType n atts =>
      record_validator type_validator (nested_body_name Request n) atts
  | _ => None
  end.

Definition body_validator (body : string) (atts : list field) : option vfun :=
  record_validator type_validator body atts.

Definition flat_check (c : check vfun) : check string :=
  match c with
  | MissingField f w => MissingField f w
  | Constraint g d f w r => Constraint g d f w r
  | Nested f callee => Nested f (vfun_name callee)
  end.

Definition flat_validator (f : vfun) : validator :=
  match f with
  | VFun n body checks =>
      {| v_name := n; v_body := body; v_checks := flat_check <$> checks |}
  end.

(** The validation function emitted for a shape: request bodies have one
    when there is something to check. *)
Definition shape_validator (sh : shape) : option validator :=
  match sh_role sh with
  | Request => flat_validator <$> body_validator (sh_name sh) (sh_atts sh)
  | Response => None
  end.

(** *** Conversion functions (4.5), request side

    With calls resolved, the function that converts the request body of a
    user type is a tree as well. *)

#[warnings="-register-all"]
Inductive hfun : Type :=
| HFun (name : string) (assigns : list (assign hfun)).

Definition hfun_name (f : hfun) : string :=
  match f with HFun n _ => n end.

Definition helper_name (pkg user : string) : string :=
  "unmarshal" +:+ nested_body_name Request user +:+ "To" +:+ pkg +:+ user.

(** The entries of the composite literal: the primitive attributes.  A
    required scalar is not a pointer in the payload, so the pointer of
    the body is dereferenced. *)
Definition literal_assigns {F : Type} (atts : list field) : list (assign F) :=
  omap (λ a, match att_type a with
             | Prim k =>
                 Some (if att_required a
                          && pointer_field Request (att_required a) (att_type a)
                       then Deref (att_goname a)
                       else Copy (att_goname a))
             | _ => None
             end) atts.

(** The statements after the literal: collections are rebuilt element by
    element, user types go through their conversion function ([rec] gives
    the conversion function of a type); the statement of an optional
    attribute is guarded. *)
Definition statement_assigns {F : Type} (rec : dtype → option F)
    (atts : list field) : list (assign F) :=
  omap (λ a, match att_type a with
             | Prim _ => None
             | Array _ => Some (CopySlice (negb (att_required a)) (att_goname a))
             | Map _ _ => Some (CopyMap (negb (att_required a)) (att_goname a))
             | UserType _ _ =>
                 Delegate (negb (att_required a)) (att_goname a)
                   <$> rec (att_type a)
             end) atts.

Definition record_assigns {F : Type} (rec : dtype → option F)
    (atts : list field) : list (assign F) :=
  literal_assigns atts ++ statement_assigns rec atts.

(** Modelled from the spec: the conversion function of the request body of
    a user type (4.5; the transform helpers of http/codegen are not among
    the sources; the expected constructors only call them). *)
Fixpoint type_helper (pkg : string) (t : dtype) : option hfun :=
  match t with
  | UserType n atts =>
      Some (HFun (helper_name pkg n) (record_assigns (type_helper pkg) atts))
  | _ => None
  end.

Definition flat_assign (a : assign hfun) : assign string :=
  match a with
  | Copy f => Copy f
  | Deref f => Deref f
  | CopySlice g f => CopySlice g f
  | CopyMap g f => CopyMap g f
  | Delegate g f callee => Delegate g f (hfun_name callee)
  | Param f p => Param f p
  end.

Definition param_assigns {F : Type} (params : list (string * string * gotype))
    : list (assign F) :=
  (λ p, Param p.1.1 p.1.2) <$> params.

(** The assignments of the constructor of a method's payload. *)
Definition payload_assigns (pkg : string) (m : method) : list (assign hfun) :=
  match m_body m with
  | Some atts => record_assigns (type_helper pkg) atts
  | None => []
  end ++ param_assigns (m_params m).

(** Modelled from the spec: the constructor of a method's payload (4.5;
    not among the sources); a method without payload has none. *)
Definition payload_constructor (pkg : string) (m : method)
    : option constructor :=
  match m_body m, m_params m with
  | None, [] => None
  | _, _ =>
      Some {| c_name := "New" +:+ m_name m +:+ m_payload m;
              c_body := (λ _, request_body_name m) <$> m_body m;
              c_params := (λ p, (p.1.2, p.2)) <$> m_params m;
              c_assigns := flat_assign <$> payload_assigns pkg m |}
  end.

(** *** The generated text of a service *)

(** Modelled from the spec: [func serverType(genpkg string,
    svc *expr.HTTPServiceExpr, seen map[string]struct{}) *codegen.File]
    (http/codegen/server_types.go, not among the sources; the test calls
    it), as far as the sections that the test writes are concerned. *)
Definition serverType (genpkg : string) (svc : service) (seen : gset string)
    : file :=
  let shs := shapes svc seen in
  {| types := shape_decl <$> shs;
     inits := omap (payload_constructor (s_pkg svc)) (s_methods svc);
     validators := omap shape_validator shs |}.

(** A conversion function that the constructors call: its name, the body
    type it takes and its assignments. *)
Record helper : Type := Helper {
  h_name : string;
  h_from : string;
  h_assigns : list (assign string)
}.

Definition shape_helper (pkg : string) (sh : shape) : option helper :=
  match sh_role sh, sh_user sh with
  | Request, Some user =>
      Some {| h_name := helper_name pkg user;
              h_from := sh_name sh;
              h_assigns :=
                flat_assign <$> record_assigns (type_helper pkg) (sh_atts sh) |}
  | _, _ => None
  end.

(** Modelled from the spec: the conversion functions of a service (4.5;
    not among the sources).  They are not part of the text that the test
    compares; one is generated for every nested request shape. *)
Definition transformHelpers (svc : service) (seen : gset string)
    : list helper :=
  omap (shape_helper (s_pkg svc)) (shapes svc seen).

(** ** Notions used to state the properties *)
























(** *** The designs of the test cases

    The designs of package [testdata] are not among the sources.  Each is
    read back from the expected text of its case: an attribute is required
    when the expected validation function reports it missing (request
    bodies) or when its tag has no [omitempty] (response bodies).  The
    design of the case with a result collection uses a collection of
    result types, which the model does not cover. *)

Definition att (name goname : string) (required : bool) (rules : list rule)
    (t : dtype) : field :=
  Attribute name goname required rules t.

Definition BPayload : dtype :=
  UserType "BPayload" [
    att "int" "Int" true [] (Prim IntKind);
    att "bytes" "Bytes" false [] (Prim BytesKind) ].

Definition MixedPayloadMethodA : method :=
  Method "MethodA" "APayload"
    (Some [ att "any" "Any" false [] (Prim AnyKind);
            att "array" "Array" true [] (Array Float32Kind);
            att "map" "Map" false [] (Map UIntKind AnyKind);
            att "object" "Object" true [] BPayload;
            att "dup_obj" "DupObj" false [] BPayload ])
    [] None [].

(** Modelled from the spec: [testdata.MixedPayloadInBodyDSL], the design of the case
    "server-mixed-payload-attrs", read back from its expected text. *)
Definition MixedPayloadInBodyDSL : service :=
  Service "Servicemixedpayloadinbody" [ MixedPayloadMethodA ].

Definition APayload : dtype :=
  UserType "APayload" [
    att "a" "A" false [Pattern "patterna"] (Prim StringKind) ].

Definition MultipleMethodsMethodA : method :=
  Method "MethodA" "APayload"
    (Some [ att "a" "A" false [Pattern "patterna"] (Prim StringKind) ])
    [] None [].

Definition MultipleMethodsMethodB : method :=
  Method "MethodB" "PayloadType"
    (Some [ att "a" "A" true [Pattern "patterna"] (Prim StringKind);
            att "b" "B" false [Pattern "patternb"] (Prim StringKind);
            att "c" "C" true [] APayload ])
    [] None [].

(** Modelled from the spec: [testdata.MultipleMethodsDSL], the design of the case
    "server-multiple-methods", read back from its expected text. *)
Definition MultipleMethodsDSL : service :=
  Service "Servicemultiplemethods" [
    MultipleMethodsMethodA; MultipleMethodsMethodB ].

(** Modelled from the spec: [testdata.PayloadExtendedValidateDSL], the design of the case
    "server-payload-extend-validate", read back from its expected text. *)
Definition PayloadExtendedValidateDSL : service :=
  Service "Servicequerystringextendedvalidatepayload" [
    Method "MethodQueryStringExtendedValidatePayload" "Payload"
      (Some [ att "body" "Body" true [] (Prim StringKind) ])
      [ ("Q", "q", GBasic "string"); ("H", "h", GBasic "int") ] None [] ].

(** Modelled from the spec: [testdata.ResultTypeValidateDSL], the design of the case
    "server-result-type-validate", read back from its expected text. *)
Definition ResultTypeValidateDSL : service :=
  Service "Serviceresulttypevalidate" [
    Method "MethodResultTypeValidate" "" None []
      (Some (Result [ att "a" "A" false [] (Prim StringKind) ] None)) [] ].

Definition Rt : dtype :=
  UserType "Rt" [ att "x" "X" false [] (Prim StringKind) ].

(** Modelled from the spec: [testdata.ResultWithResultViewDSL], the design of the case
    "server-with-result-view", read back from its expected text. *)
Definition ResultWithResultViewDSL : service :=
  Service "Serviceresultwithresultview" [
    Method "MethodResultWithResultView" "" None []
      (Some (Result [ att "name" "Name" false [] (Prim StringKind);
                      att "rt" "Rt" false [] Rt ] (Some "Full"))) [] ].

(** Modelled from the spec: [testdata.EmptyErrorResponseBodyDSL], the design of the case
    "server-empty-error-response-body", read back from its expected text. *)
Definition EmptyErrorResponseBodyDSL : service :=
  Service "Serviceemptyerrorresponsebody" [
    Method "MethodEmptyErrorResponseBody" "" None [] None [] ].

(** Modelled from the spec: [testdata.WithErrorCustomPkgDSL], the design of the case
    "server-with-error-custom-pkg", read back from its expected text. *)
Definition WithErrorCustomPkgDSL : service :=
  Service "Servicewitherrorcustompkg" [
    Method "MethodWithErrorCustomPkg" "" None [] None
      [ ("ErrorName", [ att "name" "Name" true [] (Prim StringKind) ]) ] ].

(** Modelled from the spec: [testdata.PayloadBodyCustomNameDSL], the design of the case
    "server-body-custom-name", read back from its expected text. *)
Definition PayloadBodyCustomNameDSL : service :=
  Service "Servicebodycustomname" [
    Method "MethodBodyCustomName" "Payload"
      (Some [ att "b" "Body" false [] (Prim StringKind) ]) [] None [] ].

(** Modelled from the spec: [testdata.PayloadPathCustomNameDSL], the design of the case
    "server-path-custom-name", read back from its expected text. *)
Definition PayloadPathCustomNameDSL : service :=
  Service "Servicepathcustomname" [
    Method "MethodPathCustomName" "Payload" None
      [ ("Path", "p", GBasic "string") ] None [] ].

(** Modelled from the spec: [testdata.PayloadQueryCustomNameDSL], the design of the case
    "server-query-custom-name", read back from its expected text. *)
Definition PayloadQueryCustomNameDSL : service :=
  Service "Servicequerycustomname" [
    Method "MethodQueryCustomName" "Payload" None
      [ ("Query", "q", GPtr (GBasic "string")) ] None [] ].

(** Modelled from the spec: [testdata.PayloadHeaderCustomNameDSL], the design of the case
    "server-header-custom-name", read back from its expected text. *)
Definition PayloadHeaderCustomNameDSL : service :=
  Service "Serviceheadercustomname" [
    Method "MethodHeaderCustomName" "Payload" None
      [ ("Header", "h", GPtr (GBasic "string")) ] None [] ].

(** Modelled from the spec: [testdata.PayloadCookieCustomNameDSL], the design of the case
    "server-cookie-custom-name", read back from its expected text. *)
Definition PayloadCookieCustomNameDSL : service :=
  Service "Servicecookiecustomname" [
    Method "MethodCookieCustomName" "Payload" None
      [ ("Cookie", "c2", GPtr (GBasic "string")) ] None [] ].

(** [const genpkg = "gen"] of [TestServerTypes] *)
Definition genpkg : string := "gen".

(** ** What the generated functions do

    The generated functions are Go text; their meaning is given here on
    the values a decoded body can hold.  [VNil] is the nil pointer, slice,
    map or interface; [VScalar] is a scalar (or a non-nil pointer to one);
    [VStruct] is a non-nil pointer to a body struct, with its fields by Go
    name. *)

#[warnings="-register-all"]
Inductive value : Type :=
| VNil
| VScalar (s : string)
| VSlice (elems : list string)
| VMap (entries : list (string * string))
| VStruct (fields : list (string * value)).

Definition is_nil (v : value) : bool :=
  match v with
  | VNil => true
  | _ => false
  end.

(** [body.F]; a field that is not listed has its zero value, nil. *)
Fixpoint get (f : string) (fields : list (string * value)) : value :=
  match fields with
  | [] => VNil
  | (g, v) :: rest => if bool_decide (f = g) then v else get f rest
  end.



(** The errors a validation function merges. *)
Inductive verr : Type :=
| MissingFieldError (name context : string)
| ValidationError (context : string) (r : rule).

Section Run.

(** Whether a value breaks a rule is decided by the validation helpers of
    package goa ([ValidatePattern], [ValidateFormat], ...), which are not
    among the sources. *)
Variable violates : rule → value → bool.

Definition run_check (rec : vfun → value → outcome (list verr))
    (fields : list (string * value)) (c : check vfun)
    : outcome (list verr) :=
  match c with
  | MissingField f w =>
      Ret (if is_nil (get f fields) then [MissingFieldError w "body"] else [])
  | Constraint guarded dereferenced f w r =>
      let v := get f fields in
      if guarded && is_nil v then Ret []
      else if dereferenced && is_nil v then Panic NilDereference
      else Ret (if violates r v then [ValidationError ("body." +:+ w) r]
                else [])
  | Nested f callee =>
      let v := get f fields in
      if is_nil v then Ret [] else rec callee v
  end.

(** Modelled from the spec: a validation function applied to a body (4.4).
    The statements run in order and their errors are merged; on a nil body
    the first statement panics; a value of another Go type than the
    body's is not a body. *)
Fixpoint run_vfun (f : vfun) (body : value) {struct f}
    : outcome (list verr) :=
  match f with
  | VFun _ _ checks =>
      match body with
      | VStruct fields =>
          (fix each (cs : list (check vfun)) : outcome (list verr) :=
             match cs with
             | [] => Ret []
             | c :: cs' =>
                 e1 ← run_check run_vfun fields c;
                 e2 ← each cs';
                 Ret (e1 ++ e2)
             end) checks
      | VNil =>
          match checks with
          | [] => Ret []
          | _ :: _ => Panic NilDereference
          end
      | _ => Ret []
      end
  end.


(** The validation of a body: the errors that its validation function
    reports; a body without validation function is not validated. *)
Definition validate (body : string) (atts : list field)
    (fields : list (string * value)) : outcome (list verr) :=
  match body_validator body atts with
  | Some f => run_vfun f (VStruct fields)
  | None => Ret []
  end.

Definition run_assign (rec : hfun → value → outcome value)
    (fields params : list (string * value)) (a : assign hfun)
    : outcome (string * value) :=
  match a with
  | Copy f => Ret (f, get f fields)
  | Deref f =>
      match get f fields with
      | VNil => Panic NilDereference
      | v => Ret (f, v)
      end
  | CopySlice guarded f =>
      match get f fields with
      | VSlice elems => Ret (f, VSlice elems)
      | _ => Ret (f, if guarded then VNil else VSlice [])
      end
  | CopyMap guarded f =>
      match get f fields with
      | VMap entries => Ret (f, VMap entries)
      | _ => Ret (f, if guarded then VNil else VMap [])
      end
  | Delegate guarded f callee =>
      let v := get f fields in
      if guarded && is_nil v then Ret (f, VNil)
      else v' ← rec callee v; Ret (f, v')
  | Param f p => Ret (f, get p params)
  end.

(** Modelled from the spec: a conversion function applied to a body (4.5);
    on a nil body the first field access panics; a value of another Go
    type than the body's is not a body. *)
Fixpoint run_hfun (f : hfun) (body : value) {struct f} : outcome value :=
  match f with
  | HFun _ assigns =>
      match body with
      | VStruct fields =>
          fs ← (fix each (l : list (assign hfun))
                  : outcome (list (string * value)) :=
                  match l with
                  | [] => Ret []
                  | a :: l' =>
                      x ← run_assign run_hfun fields [] a;
                      xs ← each l';
                      Ret (x :: xs)
                  end) assigns;
          Ret (VStruct fs)
      | VNil =>
          match assigns with
          | [] => Ret (VStruct [])
          | _ :: _ => Panic NilDereference
          end
      | _ => Ret VNil
      end
  end.

Fixpoint run_assigns (fields params : list (string * value))
    (l : list (assign hfun)) : outcome (list (string * value)) :=
  match l with
  | [] => Ret []
  | a :: l' =>
      x ← run_assign run_hfun fields params a;
      xs ← run_assigns fields params l';
      Ret (x :: xs)
  end.

(** Modelled from the spec: the constructor of the payload of [m] (4.5)
    applied to a (non-nil) body
    with the given fields and to the other parameters. *)
Definition run_constructor (pkg : string) (m : method)
    (fields params : list (string * value)) : outcome value :=
  fs ← run_assigns fields params (payload_assigns pkg m);
  Ret (VStruct fs).

End Run.

End Codegen.

Module GoaErrors.
Import Goa.

(** ** The error classes and the error functions of error.go *)

(** The messages of the entries of a [MultiError], as the loop of
    [func (m MultiError) Error() string] collects them. *)
Fixpoint messages (m : MultiError) : outcome (list string) :=
  match m with
  | [] => Ret []
  | x :: m' => s ← error_Error x; ss ← messages m'; Ret (s :: ss)
  end.

(** The error [he] with the metadata [m]. *)
Definition with_meta (he : HTTPError) (m : gmap string any) : HTTPError :=
  {| Code := Code he; Status := Status he; Detail := Detail he;
     MetaValues := Some m |}.

(** The arguments of [Meta] that are keys: those at the even indices. *)
Fixpoint meta_keys (keyvals : list any) : list any :=
  match keyvals with
  | [] => []
  | [k] => [k]
  | k :: _ :: rest => k :: meta_keys rest
  end.

Section Classes.

Variable Sprintf : string → list any → string.

(** [type ErrorClass func(fm interface{}, v ...interface{}) *HTTPError] *)
Definition ErrorClass : Type := format → list any → outcome HTTPError.

Definition ErrInvalidParamType : ErrorClass :=
  NewErrorClass Sprintf "invalid_parameter_type" 400.
Definition ErrMissingParam : ErrorClass :=
  NewErrorClass Sprintf "missing_parameter" 400.
Definition ErrInvalidAttributeType : ErrorClass :=
  NewErrorClass Sprintf "invalid_attribute" 400.
Definition ErrMissingAttribute : ErrorClass :=
  NewErrorClass Sprintf "missing_attribute" 400.
Definition ErrInvalidEnumValue : ErrorClass :=
  NewErrorClass Sprintf "invalid_value" 400.
Definition ErrMissingHeader : ErrorClass :=
  NewErrorClass Sprintf "missing_header" 400.
Definition ErrInvalidFormat : ErrorClass :=
  NewErrorClass Sprintf "invalid_format" 400.
Definition ErrInvalidPattern : ErrorClass :=
  NewErrorClass Sprintf "invalid_pattern" 400.
Definition ErrInvalidRange : ErrorClass :=
  NewErrorClass Sprintf "invalid_range" 400.
Definition ErrInvalidLength : ErrorClass :=
  NewErrorClass Sprintf "invalid_length" 400.
Definition ErrInvalidEncoding : ErrorClass :=
  NewErrorClass Sprintf "invalid_encoding" 400.
Definition ErrInternal : ErrorClass :=
  NewErrorClass Sprintf "internal" 500.

(** A class applied to a format string; the [*HTTPError] is returned as an
    [error]. *)
Definition class_error (class : ErrorClass) (fm : string) (v : list any)
    : outcome error :=
  he ← class (FmtAny (AnyString fm)) v; Ret (ErrHTTP (Some he)).

(** [func InvalidParamTypeError(name string, val interface{}, expected string) error] *)
Definition InvalidParamTypeError (name : string) (val : any)
    (expected : string) : outcome error :=
  class_error ErrInvalidParamType
    "invalid value %#v for parameter %#v, must be a %s"
    [val; AnyString name; AnyString expected].

(** [func MissingParamError(name string) error] *)
Definition MissingParamError (name : string) : outcome error :=
  class_error ErrMissingParam "missing required parameter %#v"
    [AnyString name].

(** [func InvalidAttributeTypeError(ctx string, val interface{}, expected string) error] *)
Definition InvalidAttributeTypeError (ctx : string) (val : any)
    (expected : string) : outcome error :=
  class_error ErrInvalidAttributeType
    "type of %s must be %s but got value %#v"
    [AnyString ctx; AnyString expected; val].

(** [func MissingAttributeError(ctx, name string) error] *)
Definition MissingAttributeError (ctx name : string) : outcome error :=
  class_error ErrMissingAttribute
    "attribute %#v of %s is missing and required"
    [AnyString name; AnyString ctx].

(** [func MissingHeaderError(name string) error] *)
Definition MissingHeaderError (name : string) : outcome error :=
  class_error ErrMissingHeader "missing required HTTP header %#v"
    [AnyString name].

(** [func InvalidEnumValueError(ctx string, val interface{}, allowed []interface{}) error] *)
Definition InvalidEnumValueError (ctx : string) (val : any)
    (allowed : list any) : outcome error :=
  let elems := (λ a, Sprintf "%#v" [a]) <$> allowed in
  class_error ErrInvalidEnumValue
    "value of %s must be one of %s but got value %#v"
    [AnyString ctx; AnyString (Join elems ", "); val].

(** [func InvalidFormatError(ctx, target string, format Format, formatError error) error];
    the type [Format] is declared in another file of the package, its
    values are only printed here.  The argument [formatError.Error()] is
    evaluated before the class is applied. *)
Definition InvalidFormatError (ctx target : string) (format : any)
    (formatError : error) : outcome error :=
  msg ← error_Error formatError;
  class_error ErrInvalidFormat
    "%s must be formatted as a %s but got value %#v, %s"
    [AnyString ctx; format; AnyString target; AnyString msg].

(** [func InvalidPatternError(ctx, target string, pattern string) error] *)
Definition InvalidPatternError (ctx target pattern : string) : outcome error :=
  class_error ErrInvalidPattern
    "%s must match the regexp %#v but got value %#v"
    [AnyString ctx; AnyString pattern; AnyString target].

(** [func InvalidRangeError(ctx string, target interface{}, value int, min bool) error] *)
Definition InvalidRangeError (ctx : string) (target : any) (value : Z)
    (min : bool) : outcome error :=
  let comp := if negb min then "lesser or equal" else "greater or equal" in
  class_error ErrInvalidRange
    "%s must be %s than %d but got value %#v"
    [AnyString ctx; AnyString comp; AnyInt value; target].

(** [func InvalidLengthError(ctx string, target interface{}, ln, value int, min bool) error] *)
Definition InvalidLengthError (ctx : string) (target : any) (ln value : Z)
    (min : bool) : outcome error :=
  let comp := if negb min then "lesser or equal" else "greater or equal" in
  class_error ErrInvalidLength
    "length of %s must be %s than %d but got value %#v (len=%d)"
    [AnyString ctx; AnyString comp; AnyInt value; target; AnyInt ln].

(** An error that one of the error functions above returns. *)
Inductive validation_error : error → Prop :=
| ByInvalidParamType name val expected e :
    InvalidParamTypeError name val expected = Ret e → validation_error e
| ByMissingParam name e :
    MissingParamError name = Ret e → validation_error e
| ByInvalidAttributeType ctx val expected e :
    InvalidAttributeTypeError ctx val expected = Ret e → validation_error e
| ByMissingAttribute ctx name e :
    MissingAttributeError ctx name = Ret e → validation_error e
| ByMissingHeader name e :
    MissingHeaderError name = Ret e → validation_error e
| ByInvalidEnumValue ctx val allowed e :
    InvalidEnumValueError ctx val allowed = Ret e → validation_error e
| ByInvalidFormat ctx target format formatError e :
    InvalidFormatError ctx target format formatError = Ret e →
    validation_error e
| ByInvalidPattern ctx target pattern e :
    InvalidPatternError ctx target pattern = Ret e → validation_error e
| ByInvalidRange ctx target value min e :
    InvalidRangeError ctx target value min = Ret e → validation_error e
| ByInvalidLength ctx target ln value min e :
    InvalidLengthError ctx target ln value min = Ret e → validation_error e.

End Classes.

(** The errors stacked one after the other, starting from no error, as
    the generated code builds a [MultiError] over time. *)
Definition stack (errs : list error) : error :=
  foldl StackErrors ErrNil errs.

End GoaErrors.

Module Expected.
Import Codegen.

(** ** The expected functions of server_types_test.go

    The cases of [TestServerTypes] with their expected texts, and what the
    functions of these texts do when they are run, statement by
    statement. *)

(** [cases] of [TestServerTypes]: name and expected text. *)
Definition cases : list (string * file) := [
  ("server-mixed-payload-attrs", MixedPayloadInBodyServerTypesFile);
  ("server-multiple-methods", MultipleMethodsServerTypesFile);
  ("server-payload-extend-validate", PayloadExtendedValidateServerTypesFile);
  ("server-result-type-validate", ResultTypeValidateServerTypesFile);
  ("server-with-result-collection", ResultWithResultCollectionServerTypesFile);
  ("server-with-result-view", ResultWithResultViewServerTypesFile);
  ("server-empty-error-response-body", EmptyErrorResponseBodyServerTypesFile);
  ("server-with-error-custom-pkg", WithErrorCustomPkgServerTypesFile);
  ("server-body-custom-name", BodyCustomNameServerTypesFile);
  ("server-path-custom-name", PathCustomNameServerTypesFile);
  ("server-query-custom-name", QueryCustomNameServerTypesFile);
  ("server-header-custom-name", HeaderCustomNameServerTypesFile);
  ("server-cookie-custom-name", CookieCustomNameServerTypesFile) ].

(** The validation function that an expected text has for the body of a
    constructor. *)
Definition validator_of (f : file) (c : constructor) : option validator :=
  match c_body c with
  | Some b => List.find (λ v, bool_decide (v_body v = b)) (validators f)
  | None => None
  end.

Definition checks_of (f : file) (c : constructor) : list (check string) :=
  match validator_of f c with
  | Some v => v_checks v
  | None => []
  end.

(** The statements [checks] report the field [field] missing when it is
    nil. *)
Definition reports_missing (checks : list (check string)) (field : string)
    : bool :=
  existsb (λ c, match c with
                | MissingField g _ => bool_decide (g = field)
                | _ => false
                end) checks.

(** The fields that a constructor uses without testing them for nil. *)
Definition unguarded_fields (c : constructor) : list string :=
  omap (λ a, match a with
             | Deref f => Some f
             | Delegate false f _ => Some f
             | _ => None
             end) (c_assigns c).

(** Every field that the constructor uses without a nil test is reported
    missing by the validation function of its body. *)
Definition covered (f : file) (c : constructor) : bool :=
  forallb (reports_missing (checks_of f c)) (unguarded_fields c).

(** A constraint check that reads through the pointer is inside the
    non-nil test. *)
Definition dereferences_guarded (checks : list (check string)) : bool :=
  forallb (λ c, match c with
                | Constraint guarded dereferenced _ _ _ =>
                    implb dereferenced guarded
                | _ => true
                end) checks.

Section Exec.

(** The functions of package goa and the conversion functions that the
    expected texts call are not in them: what a rule accepts
    ([goa.ValidatePattern], ...), the validation functions called by name
    and the conversion functions called by name. *)
Variable violates : rule → value → bool.
Variable call_validator : string → value → outcome (list verr).
Variable call_helper : string → value → outcome value.

(** One statement of an expected validation function, on the fields of
    the body; the errors it merges into [err]. *)
Definition exec_check (fields : list (string * value)) (c : check string)
    : outcome (list verr) :=
  match c with
  | MissingField f w =>
      Ret (if is_nil (get f fields) then [MissingFieldError w "body"] else [])
  | Constraint guarded dereferenced f w r =>
      let v := get f fields in
      if guarded && is_nil v then Ret []
      else if dereferenced && is_nil v then Panic NilDereference
      else Ret (if violates r v then [ValidationError ("body." +:+ w) r]
                else [])
  | Nested f callee =>
      let v := get f fields in
      if is_nil v then Ret [] else call_validator callee v
  end.

Fixpoint exec_checks (fields : list (string * value))
    (cs : list (check string)) : outcome (list verr) :=
  match cs with
  | [] => Ret []
  | c :: cs' =>
      e1 ← exec_check fields c;
      e2 ← exec_checks fields cs';
      Ret (e1 ++ e2)
  end.

(** An expected validation function on a (non-nil) body. *)
Definition exec_validator (v : validator) (fields : list (string * value))
    : outcome (list verr) :=
  exec_checks fields (v_checks v).

(** One assignment of an expected constructor. *)
Definition exec_assign (fields params : list (string * value))
    (a : assign string) : outcome (string * value) :=
  match a with
  | Copy f => Ret (f, get f fields)
  | Deref f =>
      match get f fields with
      | VNil => Panic NilDereference
      | v => Ret (f, v)
      end
  | CopySlice guarded f =>
      match get f fields with
      | VSlice elems => Ret (f, VSlice elems)
      | _ => Ret (f, if guarded then VNil else VSlice [])
      end
  | CopyMap guarded f =>
      match get f fields with
      | VMap entries => Ret (f, VMap entries)
      | _ => Ret (f, if guarded then VNil else VMap [])
      end
  | Delegate guarded f callee =>
      let v := get f fields in
      if guarded && is_nil v then Ret (f, VNil)
      else v' ← call_helper callee v; Ret (f, v')
  | Param f p => Ret (f, get p params)
  end.

Fixpoint exec_assigns (fields params : list (string * value))
    (l : list (assign string)) : outcome (list (string * value)) :=
  match l with
  | [] => Ret []
  | a :: l' =>
      x ← exec_assign fields params a;
      xs ← exec_assigns fields params l';
      Ret (x :: xs)
  end.

(** An expected constructor on a (non-nil) body and the other
    parameters. *)
Definition exec_constructor (c : constructor)
    (fields params : list (string * value)) : outcome value :=
  fs ← exec_assigns fields params (c_assigns c);
  Ret (VStruct fs).

End Exec.

End Expected.

(** * Part 1: facts about error.go *)

Module GoaFacts.
Import Goa.

Lemma Status_loop_of_http_agree hs s :
  Forall (λ h, Status h = s) hs →
  Status_loop (of_http hs) s = Ret s.
Proof.
  induction 1 as [|h hs Hh _ IH]; simpl; [done|].
  rewrite Hh. destruct (s =? 500) eqn:E.
  - apply Z.eqb_eq in E. by rewrite E.
  - by rewrite Z.eqb_refl.
Qed.

Lemma Status_loop_of_http_400 hs :
  Forall (λ h, Status h ≠ 500) hs →
  Status_loop (of_http hs) 400 = Ret 400.
Proof.
  induction 1 as [|h hs Hh _ IH]; simpl; [done|].
  apply Z.eqb_neq in Hh. rewrite Hh.
  by destruct (Status h =? 400).
Qed.

Lemma Status_loop_of_http_500 hs s :
  Exists (λ h, Status h = 500) hs →
  Status_loop (of_http hs) s = Ret 500.
Proof.
  induction 1 as [h hs Hh|h hs _ IH] in s |- *; simpl.
  - by rewrite Hh.
  - destruct (Status h =? 500); [done|]. apply IH.
Qed.

Lemma Status_loop_of_http_mixed hs s :
  Forall (λ h, Status h ≠ 500) hs →
  Exists (λ h, Status h ≠ s) hs →
  Status_loop (of_http hs) s = Ret 400.
Proof.
  intros Hno Hex. induction Hex as [h hs Hh|h hs _ IH].
  - apply Forall_cons in Hno as [H5 Hno]. simpl.
    apply Z.eqb_neq in H5, Hh. rewrite H5, Hh.
    by apply Status_loop_of_http_400.
  - apply Forall_cons in Hno as [H5 Hno]. simpl.
    apply Z.eqb_neq in H5. rewrite H5.
    destruct (Status h =? s); [by apply IH|].
    by apply Status_loop_of_http_400.
Qed.

(** What [Status] does on two or more [*HTTPError] entries, case by case. *)
Lemma Status_agree h h' hs :
  Forall (λ x, Status x = Status h) (h' :: hs) →
  MultiError_Status (of_http (h :: h' :: hs)) = Ret (Status h).
Proof. intros H. simpl. by apply (Status_loop_of_http_agree (h' :: hs)). Qed.

Lemma Status_later_500 h h' hs :
  Exists (λ x, Status x = 500) (h' :: hs) →
  MultiError_Status (of_http (h :: h' :: hs)) = Ret 500.
Proof. intros H. simpl. by apply (Status_loop_of_http_500 (h' :: hs)). Qed.

Lemma Status_mixed_no_500 h h' hs :
  Forall (λ x, Status x ≠ 500) (h' :: hs) →
  Exists (λ x, Status x ≠ Status h) (h' :: hs) →
  MultiError_Status (of_http (h :: h' :: hs)) = Ret 400.
Proof. intros H1 H2. simpl. by apply (Status_loop_of_http_mixed (h' :: hs)). Qed.

(** The case the loop misses: the first entry alone has status 500. *)
Lemma Status_only_first_500 h h' hs :
  Status h = 500 →
  Forall (λ x, Status x ≠ 500) (h' :: hs) →
  MultiError_Status (of_http (h :: h' :: hs)) = Ret 400.
Proof.
  intros H5 Hno. apply Status_mixed_no_500; [done|].
  apply Forall_cons in Hno as [Hh' _]. left. congruence.
Qed.

(** C1 (status derivation over two or more HTTP errors).  The statuses
    {400,400,400}, {400,500,400} and {400,401,400} derive 400, 500 and 400,
    as the specification says; but an aggregate whose FIRST entry has
    status 500, followed by an entry of status 400, derives 400 and not
    500: the loop compares the entries after the first with 500, never
    the first one. *)
Theorem MultiError_Status_first_entry_500 :
  MultiError_Status (of_http [http 400; http 400; http 400]) = Ret 400 ∧
  MultiError_Status (of_http [http 400; http 500; http 400]) = Ret 500 ∧
  MultiError_Status (of_http [http 400; http 401; http 400]) = Ret 400 ∧
  MultiError_Status (of_http [http 500; http 400]) = Ret 400.
Proof. by repeat split. Qed.

(** C8 (empty and singleton aggregates).  [Status] of the empty
    [MultiError] is 500, and [Status] of a [MultiError] whose only entry is
    a [*HTTPError] is the status of that entry. *)
Theorem MultiError_Status_empty_single :
  MultiError_Status [] = Ret 500 ∧
  ∀ he : HTTPError, MultiError_Status [ErrHTTP (Some he)] = Ret (Status he).
Proof. split; [reflexivity | intros he; reflexivity]. Qed.

(** C5 (stacking).  [StackErrors err err2] is always a [MultiError]: the
    entries of [err] followed by the entries of [err2], where a nil
    argument has no entries, a [MultiError] argument contributes its own
    entries in order, and any other error is its own single entry. *)
Theorem StackErrors_entries (err err2 : error) :
  StackErrors err err2 = ErrMulti (entries err ++ entries err2).
Proof.
  destruct err as [|p|m|msg], err2 as [|p2|m2|msg2]; simpl;
    rewrite ?app_nil_r; reflexivity.
Qed.

(** C10 (stacking two nils).  [StackErrors(nil, nil)] is the empty
    [MultiError], which is not the nil error, and its [Status] is 500. *)
Theorem StackErrors_nil_nil :
  StackErrors ErrNil ErrNil = ErrMulti [] ∧
  StackErrors ErrNil ErrNil ≠ ErrNil ∧
  MultiError_Status [] = Ret 500.
Proof. repeat split. discriminate. Qed.

(** The loop of [Meta] ends because the index passes the end of the
    arguments, never because the fuel runs out. *)
Lemma Meta_loop_fuel Sprintf keyvals fuel fuel' i e :
  (length keyvals ≤ i + fuel)%nat → (length keyvals ≤ i + fuel')%nat →
  Meta_loop Sprintf fuel i keyvals e = Meta_loop Sprintf fuel' i keyvals e.
Proof.
  revert fuel' i e.
  induction fuel as [|fuel IH]; intros [|fuel'] i e H1 H2; simpl; try done.
  - by rewrite lookup_ge_None_2 by lia.
  - by rewrite lookup_ge_None_2 by lia.
  - destruct (keyvals !! i) as [k|]; [|done].
    destruct e as [he|]; simpl; [|done].
    destruct (MetaValues he) as [m|]; [|done].
    apply IH; lia.
Qed.

Lemma NewErrorClass_MetaValues Sprintf code status fm v he :
  NewErrorClass Sprintf code status fm v = Ret he →
  MetaValues he = None ∧ Code he = code ∧ Status he = status.
Proof.
  unfold NewErrorClass. intros H.
  match type of H with
  | mbind _ ?m = _ => destruct m as [f|q]; simpl in H; [|discriminate]
  end.
  by injection H as <-.
Qed.

(** C9 (Meta on the errors of a class).  Whatever error class
    [NewErrorClass code status] is and whatever arguments it is applied
    to, the [HTTPError] it returns has a nil [MetaValues]; calling [Meta]
    on it with at least one argument panics on the assignment into that
    nil map. *)
Theorem Meta_on_class_error_panics Sprintf code status fm v he keyvals :
  NewErrorClass Sprintf code status fm v = Ret he →
  keyvals ≠ [] →
  HTTPError_Meta Sprintf (Some he) keyvals = Panic NilMapAssignment.
Proof.
  intros Hnew Hne. apply NewErrorClass_MetaValues in Hnew as (Hmv & _ & _).
  destruct keyvals as [|k rest]; [done|].
  unfold HTTPError_Meta. simpl. by rewrite Hmv.
Qed.

Lemma Meta_on_class_error_panics_witness :
  let Sprintf := λ (f : string) (_ : list any), f in
  let he := {| Code := "internal"; Status := 500; Detail := "boom";
               MetaValues := None |} in
  HTTPError_Meta Sprintf (Some he) [AnyString "key"; AnyInt 1]
  = Panic NilMapAssignment.
Proof.
  intros Sprintf he.
  apply (Meta_on_class_error_panics Sprintf "internal" 500
           (FmtAny (AnyString "boom")) [] he [AnyString "key"; AnyInt 1]).
  - reflexivity.
  - discriminate.
Defined.

End GoaFacts.

(** * Part 2: facts about the server types *)

Module CodegenFacts.
Import Codegen.

#[local] Set Warnings "-clear-no-such-hyp".

(** ** The model gives the expected texts

    For the design of every test case that the model covers,
    [serverType] gives the text that [TestServerTypes] expects. *)

Lemma serverType_MixedPayloadInBody :
  serverType genpkg MixedPayloadInBodyDSL ∅
  = MixedPayloadInBodyServerTypesFile.
Proof. vm_compute. reflexivity. Qed.

Lemma serverType_MultipleMethods :
  serverType genpkg MultipleMethodsDSL ∅ = MultipleMethodsServerTypesFile.
Proof. vm_compute. reflexivity. Qed.

Lemma serverType_PayloadExtendedValidate :
  serverType genpkg PayloadExtendedValidateDSL ∅
  = PayloadExtendedValidateServerTypesFile.
Proof. vm_compute. reflexivity. Qed.

Lemma serverType_ResultTypeValidate :
  serverType genpkg ResultTypeValidateDSL ∅
  = ResultTypeValidateServerTypesFile.
Proof. vm_compute. reflexivity. Qed.

Lemma serverType_ResultWithResultView :
  serverType genpkg ResultWithResultViewDSL ∅
  = ResultWithResultViewServerTypesFile.
Proof. vm_compute. reflexivity. Qed.

Lemma serverType_EmptyErrorResponseBody :
  serverType genpkg EmptyErrorResponseBodyDSL ∅
  = EmptyErrorResponseBodyServerTypesFile.
Proof. vm_compute. reflexivity. Qed.

Lemma serverType_WithErrorCustomPkg :
  serverType genpkg WithErrorCustomPkgDSL ∅
  = WithErrorCustomPkgServerTypesFile.
Proof. vm_compute. reflexivity. Qed.

Lemma serverType_PayloadBodyCustomName :
  serverType genpkg PayloadBodyCustomNameDSL ∅ = BodyCustomNameServerTypesFile.
Proof. vm_compute. reflexivity. Qed.

Lemma serverType_PayloadPathCustomName :
  serverType genpkg PayloadPathCustomNameDSL ∅ = PathCustomNameServerTypesFile.
Proof. vm_compute. reflexivity. Qed.

Lemma serverType_PayloadQueryCustomName :
  serverType genpkg PayloadQueryCustomNameDSL ∅
  = QueryCustomNameServerTypesFile.
Proof. vm_compute. reflexivity. Qed.

Lemma serverType_PayloadHeaderCustomName :
  serverType genpkg PayloadHeaderCustomNameDSL ∅
  = HeaderCustomNameServerTypesFile.
Proof. vm_compute. reflexivity. Qed.

Lemma serverType_PayloadCookieCustomName :
  serverType genpkg PayloadCookieCustomNameDSL ∅
  = CookieCustomNameServerTypesFile.
Proof. vm_compute. reflexivity. Qed.

(** The conversion function that [NewMethodAAPayload] calls twice. *)
Lemma transformHelpers_MixedPayloadInBody :
  transformHelpers MixedPayloadInBodyDSL ∅
  = [ {| h_name := unmarshalBPayload;
         h_from := "BPayloadRequestBody";
         h_assigns := [ Deref "Int"; Copy "Bytes" ] |} ].
Proof. vm_compute. reflexivity. Qed.

(** ** The registry and the shapes *)

























(** ** Names and fields of the records *)











(** ** The statements of the validation functions *)









(** ** One user type, one record and one pair of functions *)































(** ** Validation makes the constructors total *)


Section Validation.

Variable violates : rule → value → bool.








End Validation.


(** The validation is needed: on a body without [A], which
    [ValidateMethodBRequestBody] rejects, [NewMethodBPayloadType] panics
    on [*body.A]. *)
Lemma constructor_panics_without_validation :
  validate (λ _ _, false) "MethodBRequestBody"
    [ att "a" "A" true [Pattern "patterna"] (Prim StringKind);
      att "b" "B" false [Pattern "patternb"] (Prim StringKind);
      att "c" "C" true [] APayload ]
    [("C", VStruct [])]
  = Ret [MissingFieldError "a" "body"] ∧
  run_constructor "Servicemultiplemethods" MultipleMethodsMethodB
    [("C", VStruct [])] []
  = Panic NilDereference.
Proof. split; reflexivity. Qed.

End CodegenFacts.

(** * Part 3: more facts about error.go *)

Module ErrorFacts.
Import Goa GoaErrors.

#[local] Set Warnings "-clear-no-such-hyp".

(** ** StackErrors *)

(** X1.  Stacking is associative: stacking three errors gives the same
    [MultiError] however the two calls are nested. *)
Theorem StackErrors_assoc (a b c : error) :
  StackErrors (StackErrors a b) c = StackErrors a (StackErrors b c).
Proof.
  destruct a as [|p|m|msg], b as [|p2|m2|msg2], c as [|p3|m3|msg3]; simpl;
    rewrite ?app_nil_r, <- ?app_assoc; reflexivity.
Qed.

(** X2.  A result of [StackErrors] is never the nil error, and stacking
    nil before or after it gives it back unchanged. *)
Theorem StackErrors_nil_neutral (a b : error) :
  StackErrors (StackErrors a b) ErrNil = StackErrors a b ∧
  StackErrors ErrNil (StackErrors a b) = StackErrors a b ∧
  StackErrors a b ≠ ErrNil.
Proof.
  destruct a as [|p|m|msg], b as [|p2|m2|msg2]; simpl; done.
Qed.

Lemma stack_http_from (acc : error) (errs : list error) :
  Forall (λ e, ∃ he, e = ErrHTTP (Some he)) errs →
  errs ≠ [] →
  foldl StackErrors acc errs = ErrMulti (entries acc ++ errs).
Proof.
  intros Hall. revert acc.
  induction Hall as [|e errs [he ->] Hall IH]; intros acc Hne; [done|].
  simpl. destruct errs as [|e' errs'].
  - simpl. destruct acc; simpl; done.
  - rewrite IH by done.
    destruct acc; simpl; rewrite <- ?app_assoc; done.
Qed.

(** ** Status *)

Lemma Status_loop_not_http es status :
  (∀ e, e ∈ es → e ≠ ErrHTTP None) →
  (∃ e, e ∈ es ∧ ∀ p, e ≠ ErrHTTP p) →
  Status_loop es status = Ret 500.
Proof.
  revert status. induction es as [|e es IH]; intros status Hptr (x & Hx & Hnot).
  - by apply elem_of_nil in Hx.
  - simpl. destruct e as [|[he|]|m|msg]; try done.
    + simpl. destruct (Status he =? 500); [done|].
      apply IH.
      * intros e He. apply Hptr. by right.
      * apply elem_of_cons in Hx as [->|Hx]; [by destruct (Hnot (Some he))|].
        by exists x.
    + destruct (Hptr (ErrHTTP None)); [left|done].
Qed.

(** X3.  [Status] is 500 as soon as one entry of the aggregate is not a
    [*HTTPError] (a nested [MultiError] included), wherever the entry is,
    provided no entry is a nil [*HTTPError]. *)
Theorem Status_not_http_500 (m : MultiError) :
  (∀ e, e ∈ m → e ≠ ErrHTTP None) →
  (∃ e, e ∈ m ∧ ∀ p, e ≠ ErrHTTP p) →
  MultiError_Status m = Ret 500.
Proof.
  intros Hptr (x & Hx & Hnot).
  destruct m as [|e0 rest]; [done|]. simpl.
  destruct e0 as [|[he|]|m'|msg]; try done.
  - simpl. destruct rest as [|e1 rest'].
    + apply list_elem_of_singleton in Hx as ->. by destruct (Hnot (Some he)).
    + apply Status_loop_not_http.
      * intros e He. apply Hptr. by right.
      * apply elem_of_cons in Hx as [->|Hx]; [by destruct (Hnot (Some he))|].
        by exists x.
  - destruct (Hptr (ErrHTTP None)); [left|done].
Qed.

Lemma Status_not_http_500_witness :
  MultiError_Status [ErrHTTP (Some (http 400)); ErrMulti [ErrHTTP (Some (http 400))]]
  = Ret 500.
Proof.
  apply Status_not_http_500.
  - intros e He Heq. subst e.
    repeat (apply elem_of_cons in He as [He|He]; [discriminate|]).
    by apply elem_of_nil in He.
  - exists (ErrMulti [ErrHTTP (Some (http 400))]). split; [right; left|].
    intros p. discriminate.
Defined.




(** X5.  On two or more [*HTTPError] entries [Status] is 500 exactly when
    an entry after the first one has status 500. *)
Theorem Status_500_iff_later_500 (h h' : HTTPError) (hs : list HTTPError) :
  MultiError_Status (of_http (h :: h' :: hs)) = Ret 500 ↔
  Exists (λ x, Status x = 500) (h' :: hs).
Proof.
  split; [|apply GoaFacts.Status_later_500].
  intros H.
  destruct (Exists_dec (λ x, Status x = 500) (h' :: hs)) as [|Hno]; [done|].
  exfalso. apply not_Exists_Forall in Hno; [|intros x; apply _].
  destruct (Forall_dec (λ x, Status x = Status h) (h' :: hs)) as [Hall|Hmix].
  - rewrite (GoaFacts.Status_agree h h' hs Hall) in H.
    apply Forall_cons in Hall as [Hh' _]. apply Forall_cons in Hno as [Hno _].
    simpl in Hno. injection H as H. congruence.
  - apply not_Forall_Exists in Hmix; [|intros x; apply _].
    rewrite (GoaFacts.Status_mixed_no_500 h h' hs) in H; [discriminate| |].
    + eapply Forall_impl; [exact Hno|]. intros x Hx. exact Hx.
    + eapply Exists_impl; [exact Hmix|]. intros x Hx. exact Hx.
Qed.

Lemma Status_loop_nil_pointer pre rest status :
  Forall (λ x, Status x ≠ 500) pre →
  Status_loop (of_http pre ++ ErrHTTP None :: rest) status
  = Panic NilDereference.
Proof.
  intros Hpre. revert status.
  induction Hpre as [|h pre Hh _ IH]; intros status; simpl; [done|].
  apply Z.eqb_neq in Hh. rewrite Hh. apply IH.
Qed.

(** X6.  [Status] panics on a nil [*HTTPError] entry that it reaches: one
    that comes after [*HTTPError] entries of which none, the first apart,
    has status 500. *)
Theorem Status_nil_pointer_panics (pre : list HTTPError) (rest : MultiError) :
  Forall (λ x, Status x ≠ 500) (tail pre) →
  MultiError_Status (of_http pre ++ ErrHTTP None :: rest)
  = Panic NilDereference.
Proof.
  destruct pre as [|h pre]; simpl; [done|]. intros Hpre.
  destruct pre as [|h' pre]; simpl; [done|].
  apply Forall_cons in Hpre as [Hh' Hpre].
  apply Z.eqb_neq in Hh'. rewrite Hh'.
  by apply Status_loop_nil_pointer.
Qed.

Lemma Status_nil_pointer_panics_witness :
  MultiError_Status (of_http [http 500; http 400] ++ [ErrHTTP None])
  = Panic NilDereference.
Proof.
  apply (Status_nil_pointer_panics [http 500; http 400] []).
  simpl. constructor; [discriminate|constructor].
Defined.

(** ** Error *)

Lemma error_Error_multi (m : MultiError) :
  error_Error (ErrMulti m) = (ss ← messages m; Ret (Join ss ", ")).
Proof.
  reflexivity.
Qed.

Lemma messages_app (m1 m2 : MultiError) :
  messages (m1 ++ m2)
  = (s1 ← messages m1; s2 ← messages m2; Ret (s1 ++ s2)).
Proof.
  induction m1 as [|x m1 IH]; simpl.
  - by destruct (messages m2).
  - destruct (error_Error x); simpl; [|done]. rewrite IH.
    destruct (messages m1); simpl; [|done]. by destruct (messages m2).
Qed.

Lemma messages_length m ss : messages m = Ret ss → length ss = length m.
Proof.
  revert ss. induction m as [|x m IH]; intros ss; simpl.
  - by intros [= <-].
  - destruct (error_Error x); simpl; [|done].
    destruct (messages m) as [ss'|]; simpl; [|done].
    intros [= <-]. simpl. f_equal. by apply IH.
Qed.

Lemma append_assoc (a b c : string) : (a +:+ b) +:+ c = a +:+ (b +:+ c).
Proof.
  induction a as [|x a IH]; [done|].
  change (String x ((a +:+ b) +:+ c) = String x (a +:+ (b +:+ c))).
  by rewrite IH.
Qed.

Lemma Join_app (l1 l2 : list string) (sep : string) :
  l1 ≠ [] → l2 ≠ [] →
  Join (l1 ++ l2) sep = Join l1 sep +:+ sep +:+ Join l2 sep.
Proof.
  intros H1 H2. induction l1 as [|s l1 IH]; [done|].
  destruct l1 as [|s' l1].
  - simpl. destruct l2; [done|]. done.
  - change ((s :: s' :: l1) ++ l2) with (s :: (s' :: l1) ++ l2).
    change (Join (s :: (s' :: l1) ++ l2) sep)
      with (s +:+ sep +:+ Join ((s' :: l1) ++ l2) sep).
    rewrite IH by done.
    change (Join (s :: s' :: l1) sep) with (s +:+ sep +:+ Join (s' :: l1) sep).
    by rewrite !append_assoc.
Qed.

(** X7.  The message of a stack of two errors that both have entries is
    the message of the first, a comma and a space, and the message of the
    second. *)
Theorem Error_of_stack (a b : error) (sa sb : string) :
  entries a ≠ [] → entries b ≠ [] →
  MultiError_Error (entries a) = Ret sa →
  MultiError_Error (entries b) = Ret sb →
  error_Error (StackErrors a b) = Ret (sa +:+ ", " +:+ sb).
Proof.
  intros Ha Hb. unfold MultiError_Error.
  assert (StackErrors a b = ErrMulti (entries a ++ entries b)) as ->.
  { destruct a, b; simpl; rewrite ?app_nil_r; done. }
  rewrite !error_Error_multi, messages_app.
  destruct (messages (entries a)) as [la|] eqn:Ea; simpl; [|done].
  destruct (messages (entries b)) as [lb|] eqn:Eb; simpl; [|done].
  intros [= <-] [= <-]. f_equal. apply Join_app.
  - intros ->. apply messages_length in Ea. by destruct (entries a).
  - intros ->. apply messages_length in Eb. by destruct (entries b).
Qed.

Lemma Error_of_stack_witness :
  error_Error (StackErrors (ErrOther "a") (ErrMulti [ErrOther "b"; ErrOther "c"]))
  = Ret ("a" +:+ ", " +:+ "b, c").
Proof.
  apply (Error_of_stack (ErrOther "a") (ErrMulti [ErrOther "b"; ErrOther "c"])
           "a" "b, c").
  - discriminate.
  - discriminate.
  - reflexivity.
  - reflexivity.
Defined.

(** X8.  [Error] of a [MultiError] returns exactly when [Error] of every
    entry returns; it panics when an entry is the nil error or a nil
    [*HTTPError]. *)
Theorem Error_returns_iff (m : MultiError) :
  returns (MultiError_Error m) ↔ Forall (λ e, returns (error_Error e)) m.
Proof.
  unfold MultiError_Error. rewrite error_Error_multi.
  assert (H : returns (messages m) ↔ Forall (λ e, returns (error_Error e)) m).
  { induction m as [|x m IH]; simpl.
    - split; [constructor|by eexists].
    - rewrite Forall_cons, <- IH. unfold returns.
      destruct (error_Error x) as [s|p]; simpl.
      + destruct (messages m) as [ss|q]; simpl.
        * split; eauto.
        * split; [intros [? ?]; discriminate|intros [_ [? ?]]; discriminate].
      + split; [intros [? ?]; discriminate|intros [[? ?] _]; discriminate]. }
  rewrite <- H. unfold returns.
  destruct (messages m) as [ss|p]; simpl.
  - split; intros _; by eexists.
  - split; intros [? ?]; discriminate.
Qed.

(** ** Meta *)

Lemma list_pair_ind {A} (P : list A → Prop) :
  P [] → (∀ k, P [k]) → (∀ k v rest, P rest → P (k :: v :: rest)) →
  ∀ l, P l.
Proof.
  intros Hnil Hone Hpair.
  assert (H : ∀ l, P l ∧ ∀ x, P (x :: l)).
  { induction l as [|y l [IH1 IH2]]; split; auto. }
  intros l. apply H.
Qed.

Section Printing.

Variable Sprintf : string → list any → string.

Lemma Meta_loop_shift fuel i k v rest e :
  Meta_loop Sprintf fuel (S (S i)) (k :: v :: rest) e
  = Meta_loop Sprintf fuel i rest e.
Proof.
  revert i e. induction fuel as [|fuel IH]; intros i e; simpl; [done|].
  destruct (rest !! i) as [k'|]; [|done].
  replace (i + 1)%nat with (S i) by lia. simpl.
  destruct e as [he|]; simpl; [|done].
  destruct (MetaValues he) as [m|]; [|done].
  replace (S (S i) + 2)%nat with (S (S (i + 2))) by lia.
  replace (i + 1)%nat with (S i) by lia.
  apply IH.
Qed.

Lemma Meta_loop_pair fuel e k v rest :
  Meta_loop Sprintf (S fuel) 0 (k :: v :: rest) e
  = (he ← deref e;
     match MetaValues he with
     | None => Panic NilMapAssignment
     | Some m =>
         Meta_loop Sprintf fuel 0 rest
           (Some (with_meta he (<[Sprintf "%v" [k] := v]> m)))
     end).
Proof.
  simpl. destruct e as [he|]; simpl; [|done].
  destruct (MetaValues he) as [m|]; [|done].
  apply Meta_loop_shift.
Qed.

Lemma Meta_pair e k v rest :
  HTTPError_Meta Sprintf e (k :: v :: rest)
  = (he ← deref e;
     match MetaValues he with
     | None => Panic NilMapAssignment
     | Some m =>
         HTTPError_Meta Sprintf
           (Some (with_meta he (<[Sprintf "%v" [k] := v]> m))) rest
     end).
Proof.
  unfold HTTPError_Meta.
  change (length (k :: v :: rest)) with (S (S (length rest))).
  rewrite Meta_loop_pair.
  destruct e as [he|]; [|done].
  cbn [mbind outcome_bind deref].
  destruct (MetaValues he) as [m|]; [|done].
  apply GoaFacts.Meta_loop_fuel; lia.
Qed.

Lemma Meta_one e k :
  HTTPError_Meta Sprintf e [k]
  = (he ← deref e;
     match MetaValues he with
     | None => Panic NilMapAssignment
     | Some m =>
         Ret (Some (with_meta he
                      (<[Sprintf "%v" [k] := AnyString "MISSING"]> m)))
     end).
Proof.
  unfold HTTPError_Meta. simpl.
  destruct e as [he|]; simpl; [|done].
  by destruct (MetaValues he) as [m|].
Qed.

(** X9.  [Meta] returns exactly when it is given no argument, or the
    receiver is not nil and its [MetaValues] is not the nil map. *)
Theorem Meta_returns_iff e keyvals :
  returns (HTTPError_Meta Sprintf e keyvals) ↔
  keyvals = [] ∨ ∃ he m, e = Some he ∧ MetaValues he = Some m.
Proof.
  revert e. induction keyvals as [| k | k v rest IH] using list_pair_ind;
    intros e.
  - split; [by left|]. intros _. by eexists.
  - rewrite Meta_one. split.
    + intros [x Hx]. right. destruct e as [he|]; [|discriminate].
      simpl in Hx. destruct (MetaValues he) as [m|] eqn:E; [|discriminate].
      by exists he, m.
    + intros [?|(he & m & -> & Hm)]; [done|]. simpl. rewrite Hm. by eexists.
  - rewrite Meta_pair. split.
    + intros [x Hx]. right. destruct e as [he|]; [|discriminate].
      simpl in Hx. destruct (MetaValues he) as [m|] eqn:E; [|discriminate].
      by exists he, m.
    + intros [?|(he & m & -> & Hm)]; [done|]. simpl. rewrite Hm.
      apply IH. right. by eexists _, _.
Qed.

(** X10.  One call of [Meta] with the arguments [kv1] followed by [kv2] is
    the call with [kv1] followed by the call with [kv2], when [kv1] has
    an even number of arguments. *)
Theorem Meta_compose e kv1 kv2 :
  Nat.even (length kv1) = true →
  HTTPError_Meta Sprintf e (kv1 ++ kv2)
  = (e' ← HTTPError_Meta Sprintf e kv1; HTTPError_Meta Sprintf e' kv2).
Proof.
  revert e. induction kv1 as [| k | k v rest IH] using list_pair_ind;
    intros e Heven.
  - done.
  - discriminate.
  - change ((k :: v :: rest) ++ kv2) with (k :: v :: rest ++ kv2).
    rewrite !Meta_pair. destruct e as [he|]; simpl; [|done].
    destruct (MetaValues he) as [m|]; [|done].
    apply IH. exact Heven.
Qed.

Lemma with_meta_id he m : MetaValues he = Some m → with_meta he m = he.
Proof. destruct he. simpl. by intros ->. Qed.

(** X11.  On an error with a map, [Meta] returns the same error (same
    code, status and detail) with a map that has, beside the old keys, the
    printed keys of the arguments; every other key keeps its value. *)
Theorem Meta_updates_given_keys he m keyvals :
  MetaValues he = Some m →
  ∃ m', HTTPError_Meta Sprintf (Some he) keyvals
          = Ret (Some (with_meta he m')) ∧
        dom m' = dom m ∪ list_to_set ((λ k, Sprintf "%v" [k])
                                        <$> meta_keys keyvals) ∧
        ∀ key, key ∉ (λ k, Sprintf "%v" [k]) <$> meta_keys keyvals →
               m' !! key = m !! key.
Proof.
  revert he m.
  induction keyvals as [| k | k v rest IH] using list_pair_ind; intros he m Hm.
  - exists m. split_and!.
    + simpl. by rewrite with_meta_id.
    + simpl. set_solver.
    + done.
  - exists (<[Sprintf "%v" [k] := AnyString "MISSING"]> m). split_and!.
    + rewrite Meta_one. simpl. by rewrite Hm.
    + simpl. rewrite dom_insert_L. set_solver.
    + intros key Hkey. simpl in Hkey. apply lookup_insert_ne. set_solver.
  - destruct (IH (with_meta he (<[Sprintf "%v" [k] := v]> m))
                 (<[Sprintf "%v" [k] := v]> m) eq_refl) as (m' & Hret & Hdom & Hkeep).
    exists m'. split_and!.
    + rewrite Meta_pair. simpl. rewrite Hm. exact Hret.
    + rewrite Hdom, dom_insert_L. simpl. set_solver.
    + intros key Hkey. simpl in Hkey. rewrite Hkeep by set_solver.
      apply lookup_insert_ne. set_solver.
Qed.

(** X12.  After [Meta], the key of the last pair is bound to the value of
    that pair, whatever earlier pairs bound it to; a last key without
    value is bound to "MISSING". *)
Theorem Meta_last_argument he m pre k v :
  Nat.even (length pre) = true →
  MetaValues he = Some m →
  (∃ m', HTTPError_Meta Sprintf (Some he) (pre ++ [k; v])
           = Ret (Some (with_meta he m')) ∧
         m' !! Sprintf "%v" [k] = Some v) ∧
  (∃ m', HTTPError_Meta Sprintf (Some he) (pre ++ [k])
           = Ret (Some (with_meta he m')) ∧
         m' !! Sprintf "%v" [k] = Some (AnyString "MISSING")).
Proof.
  intros Heven Hm.
  destruct (Meta_updates_given_keys he m pre Hm) as (m1 & Hpre & _ & _).
  split.
  - exists (<[Sprintf "%v" [k] := v]> m1). split; [|apply lookup_insert_eq].
    rewrite (Meta_compose _ pre) by done. rewrite Hpre. simpl.
    by rewrite Meta_pair.
  - exists (<[Sprintf "%v" [k] := AnyString "MISSING"]> m1).
    split; [|apply lookup_insert_eq].
    rewrite (Meta_compose _ pre) by done. rewrite Hpre. simpl.
    by rewrite Meta_one.
Qed.

(** ** Error classes and error functions *)


Lemma class_error_returns code status fm v :
  ∃ he, class_error (NewErrorClass Sprintf code status) fm v
          = Ret (ErrHTTP (Some he)) ∧
        Code he = code ∧ Status he = status ∧ MetaValues he = None ∧
        Detail he = Sprintf fm v.
Proof. by eexists. Qed.

(** X14.  The error functions always return, except [InvalidFormatError],
    which returns exactly when [formatError.Error()] does and panics on a
    nil [formatError]. *)
Theorem error_functions_return :
  (∀ name val expected,
     returns (InvalidParamTypeError Sprintf name val expected)) ∧
  (∀ name, returns (MissingParamError Sprintf name)) ∧
  (∀ ctx val expected,
     returns (InvalidAttributeTypeError Sprintf ctx val expected)) ∧
  (∀ ctx name, returns (MissingAttributeError Sprintf ctx name)) ∧
  (∀ name, returns (MissingHeaderError Sprintf name)) ∧
  (∀ ctx val allowed, returns (InvalidEnumValueError Sprintf ctx val allowed)) ∧
  (∀ ctx target pattern,
     returns (InvalidPatternError Sprintf ctx target pattern)) ∧
  (∀ ctx target value min,
     returns (InvalidRangeError Sprintf ctx target value min)) ∧
  (∀ ctx target ln value min,
     returns (InvalidLengthError Sprintf ctx target ln value min)) ∧
  (∀ ctx target format formatError,
     returns (InvalidFormatError Sprintf ctx target format formatError) ↔
     returns (error_Error formatError)) ∧
  (∀ ctx target format,
     InvalidFormatError Sprintf ctx target format ErrNil
     = Panic NilDereference).
Proof.
  split_and!; intros; try (by eexists); try done.
  unfold InvalidFormatError, returns.
  destruct (error_Error formatError) as [s|p]; simpl.
  - split; intros _; by eexists.
  - split; intros [? ?]; discriminate.
Qed.

Lemma validation_error_status e :
  validation_error Sprintf e →
  ∃ he, e = ErrHTTP (Some he) ∧ Status he = 400 ∧ MetaValues he = None.
Proof.
  intros [?????H|???H|?????H|????H|???H|?????H|??????H|?????H|??????H|???????H];
    try (injection H as <-; by eexists).
  unfold InvalidFormatError in H.
  destruct (error_Error formatError); [|discriminate].
  injection H as <-. by eexists.
Qed.

(** X15.  Stacking, from no error, any number (at least one) of errors
    made by the error functions gives the [MultiError] of these errors in
    order, and its [Status] is 400. *)
Theorem validation_errors_status_400 (errs : list error) :
  Forall (validation_error Sprintf) errs → errs ≠ [] →
  ∃ hs, stack errs = ErrMulti (of_http hs) ∧ of_http hs = errs ∧
        MultiError_Status (of_http hs) = Ret 400.
Proof.
  intros Hall Hne.
  assert (Hhs : ∃ hs, of_http hs = errs ∧ Forall (λ h, Status h = 400) hs).
  { clear Hne. induction Hall as [|e errs He _ (hs & <- & Hhs)].
    - by exists [].
    - apply validation_error_status in He as (he & -> & Hs & _).
      exists (he :: hs). split; [done|]. by constructor. }
  destruct Hhs as (hs & <- & Hhs). exists hs. split_and!; [|done|].
  - unfold stack. rewrite stack_http_from; [done| |done].
    clear. induction hs; constructor; [by eexists|done].
  - destruct hs as [|h hs]; [done|].
    apply Forall_cons in Hhs as [Hh Hhs].
    destruct hs as [|h' hs]; [simpl; by rewrite Hh|].
    rewrite <- Hh. apply GoaFacts.Status_agree.
    eapply Forall_impl; [exact Hhs|]. intros x Hx. simpl. congruence.
Qed.

End Printing.

Lemma Meta_compose_witness :
  let Sprintf := λ (f : string) (_ : list any), f in
  HTTPError_Meta Sprintf (Some (with_meta (http 400) ∅))
    ([AnyString "a"; AnyInt 1] ++ [AnyString "b"])
  = (e' ← HTTPError_Meta Sprintf (Some (with_meta (http 400) ∅))
            [AnyString "a"; AnyInt 1];
     HTTPError_Meta Sprintf e' [AnyString "b"]).
Proof. intros Sprintf. apply (Meta_compose Sprintf). reflexivity. Defined.

Lemma Meta_updates_given_keys_witness :
  let Sprintf := λ (f : string) (_ : list any), f in
  ∃ m', HTTPError_Meta Sprintf (Some (with_meta (http 400) ∅))
          [AnyString "a"; AnyInt 1; AnyString "b"]
          = Ret (Some (with_meta (with_meta (http 400) ∅) m')) ∧
        dom m' = dom (∅ : gmap string any)
                 ∪ list_to_set ((λ k, Sprintf "%v" [k])
                      <$> meta_keys [AnyString "a"; AnyInt 1; AnyString "b"]) ∧
        ∀ key, key ∉ (λ k, Sprintf "%v" [k])
                       <$> meta_keys [AnyString "a"; AnyInt 1; AnyString "b"] →
               m' !! key = (∅ : gmap string any) !! key.
Proof.
  intros Sprintf.
  apply (Meta_updates_given_keys Sprintf (with_meta (http 400) ∅) ∅).
  reflexivity.
Defined.

Lemma Meta_last_argument_witness :
  let Sprintf := λ (f : string) (_ : list any), f in
  (∃ m', HTTPError_Meta Sprintf (Some (with_meta (http 400) ∅))
           ([AnyString "a"; AnyInt 1] ++ [AnyString "a"; AnyInt 2])
           = Ret (Some (with_meta (with_meta (http 400) ∅) m')) ∧
         m' !! Sprintf "%v" [AnyString "a"] = Some (AnyInt 2)) ∧
  (∃ m', HTTPError_Meta Sprintf (Some (with_meta (http 400) ∅))
           ([AnyString "a"; AnyInt 1] ++ [AnyString "a"])
           = Ret (Some (with_meta (with_meta (http 400) ∅) m')) ∧
         m' !! Sprintf "%v" [AnyString "a"] = Some (AnyString "MISSING")).
Proof.
  intros Sprintf.
  apply (Meta_last_argument Sprintf (with_meta (http 400) ∅) ∅
           [AnyString "a"; AnyInt 1] (AnyString "a") (AnyInt 2));
    reflexivity.
Defined.

Lemma validation_errors_status_400_witness :
  let Sprintf := λ (f : string) (_ : list any), f in
  ∃ hs, stack [ErrHTTP (Some (mkHTTPError "missing_attribute" 400
                  "attribute %#v of %s is missing and required" None));
               ErrHTTP (Some (mkHTTPError "invalid_pattern" 400
                  "%s must match the regexp %#v but got value %#v" None))]
        = ErrMulti (of_http hs) ∧
        of_http hs
        = [ErrHTTP (Some (mkHTTPError "missing_attribute" 400
                  "attribute %#v of %s is missing and required" None));
           ErrHTTP (Some (mkHTTPError "invalid_pattern" 400
                  "%s must match the regexp %#v but got value %#v" None))] ∧
        MultiError_Status (of_http hs) = Ret 400.
Proof.
  intros Sprintf.
  apply (validation_errors_status_400 Sprintf).
  - constructor; [|constructor; [|constructor]].
    + by apply (ByMissingAttribute Sprintf "body" "a").
    + by apply (ByInvalidPattern Sprintf "body.a" "x" "patterna").
  - discriminate.
Defined.

End ErrorFacts.

(** * Part 4: facts about the expected functions *)

Module ExpectedFacts.
Import Codegen Expected.

Section ExecFacts.
Variable violates : rule → value → bool.
Variable call_validator : string → value → outcome (list verr).
Variable call_helper : string → value → outcome value.

Lemma exec_checks_nil fields cs :
  exec_checks violates call_validator fields cs = Ret [] →
  ∀ c, c ∈ cs → exec_check violates call_validator fields c = Ret [].
Proof.
  induction cs as [|c cs IH]; simpl; intros H x Hx.
  - by apply elem_of_nil in Hx.
  - destruct (exec_check _ _ fields c) as [e1|] eqn:E1; [|discriminate].
    destruct (exec_checks _ _ fields cs) as [e2|] eqn:E2; [|discriminate].
    simpl in H. injection H as H. apply app_eq_nil in H as [-> ->].
    apply elem_of_cons in Hx as [->|Hx]; [done|]. by apply IH.
Qed.

Lemma reports_missing_check checks field :
  reports_missing checks field = true →
  ∃ w, MissingField field w ∈ checks.
Proof.
  unfold reports_missing. rewrite existsb_exists.
  intros (c & Hc & H). destruct c as [g w| |]; try discriminate.
  apply bool_decide_eq_true in H as ->. exists w. by apply list_elem_of_In.
Qed.

Lemma exec_assigns_returns fields params l :
  (∀ a, a ∈ l → returns (exec_assign call_helper fields params a)) →
  returns (exec_assigns call_helper fields params l).
Proof.
  induction l as [|a l IH]; simpl; intros H; [by eexists|].
  destruct (H a) as [x Hx]; [left|]. rewrite Hx. simpl.
  destruct IH as [xs Hxs]; [intros b Hb; apply H; by right|].
  rewrite Hxs. by eexists.
Qed.

Lemma covered_constructor_returns f c fields params :
  covered f c = true →
  (∀ callee v, is_nil v = false → returns (call_helper callee v)) →
  exec_checks violates call_validator fields (checks_of f c) = Ret [] →
  returns (exec_constructor call_helper c fields params).
Proof.
  intros Hcov Hhelper Hval. unfold exec_constructor.
  enough (returns (exec_assigns call_helper fields params (c_assigns c)))
    as [fs ->] by by eexists.
  assert (Hnonnil : ∀ g, g ∈ unguarded_fields c →
                      is_nil (get g fields) = false).
  { intros g Hg. unfold covered in Hcov. rewrite forallb_forall in Hcov.
    apply list_elem_of_In, Hcov, reports_missing_check in Hg as [w Hw].
    pose proof (exec_checks_nil _ _ Hval _ Hw) as H. simpl in H.
    by destruct (is_nil (get g fields)). }
  apply exec_assigns_returns. intros a Ha.
  destruct a as [g|g|gd g|gd g|gd g callee|g p]; simpl;
    try (by eexists).
  - assert (Hg : is_nil (get g fields) = false).
    { apply Hnonnil. unfold unguarded_fields. apply list_elem_of_omap.
      by exists (Deref g). }
    destruct (get g fields); try discriminate; by eexists.
  - destruct (get g fields); by eexists.
  - destruct (get g fields); by eexists.
  - destruct gd; simpl.
    + destruct (is_nil (get g fields)) eqn:E; [by eexists|].
      destruct (Hhelper callee _ E) as [v' ->]. by eexists.
    + assert (Hg : is_nil (get g fields) = false).
      { apply Hnonnil. unfold unguarded_fields. apply list_elem_of_omap.
        by exists (Delegate false g callee). }
      destruct (Hhelper callee _ Hg) as [v' ->]. by eexists.
Qed.

Lemma cases_covered :
  forallb (λ case, forallb (covered case.2) (inits case.2)) cases = true.
Proof. vm_compute. reflexivity. Qed.

(** X16.  For every expected text of [TestServerTypes] and every
    constructor in it: on a body for which the statements of the expected
    validation function of that body report no error, the constructor
    returns, provided the conversion functions it calls return on non-nil
    arguments. *)
Theorem expected_constructors_after_validation name f c fields params :
  (name, f) ∈ cases → c ∈ inits f →
  (∀ callee v, is_nil v = false → returns (call_helper callee v)) →
  exec_checks violates call_validator fields (checks_of f c) = Ret [] →
  returns (exec_constructor call_helper c fields params).
Proof.
  intros Hcase Hc. apply covered_constructor_returns.
  pose proof cases_covered as H. rewrite forallb_forall in H.
  specialize (H (name, f) ltac:(by apply list_elem_of_In)). simpl in H.
  rewrite forallb_forall in H. apply H. by apply list_elem_of_In.
Qed.

Lemma guarded_checks_return fields cs :
  dereferences_guarded cs = true →
  (∀ callee x, returns (call_validator callee x)) →
  ∃ errs, exec_checks violates call_validator fields cs = Ret errs ∧
          ∀ g w, MissingField g w ∈ cs → is_nil (get g fields) = true →
                 MissingFieldError w "body" ∈ errs.
Proof.
  intros Hguard Hcall. induction cs as [|c cs IH].
  - exists []. split; [done|]. intros g w H. by apply elem_of_nil in H.
  - simpl in Hguard. apply andb_prop in Hguard as [Hc Hguard].
    destruct (IH Hguard) as (e2 & He2 & Hin2).
    change (exec_checks violates call_validator fields (c :: cs))
      with (e1 ← exec_check violates call_validator fields c;
            e2 ← exec_checks violates call_validator fields cs;
            Ret (e1 ++ e2)).
    rewrite He2.
    assert (Hret : ∃ e1, exec_check violates call_validator fields c = Ret e1 ∧
               ∀ g w, c = MissingField g w → is_nil (get g fields) = true →
                      MissingFieldError w "body" ∈ e1).
    { destruct c as [g w|gd dr g w r|g callee]; simpl.
      - eexists. split; [done|]. intros g' w' [= -> ->] ->. left.
      - destruct gd, dr; try discriminate; simpl;
          destruct (is_nil (get g fields)); simpl; by eexists.
      - destruct (is_nil (get g fields)); [by eexists|].
        destruct (Hcall callee (get g fields)) as [e ->]. by eexists. }
    destruct Hret as (e1 & -> & Hin1). simpl. eexists. split; [done|].
    intros g w [Heq|H]%elem_of_cons Hnil; apply elem_of_app; eauto.
Qed.

Lemma cases_guarded :
  forallb (λ case, forallb (λ v, dereferences_guarded (v_checks v))
                     (validators case.2)) cases = true.
Proof. vm_compute. reflexivity. Qed.

(** X17.  Every expected validation function returns on every body
    (provided the validation functions it calls return) and its errors
    hold one missing-field error for every checked field that is nil: it
    does not stop at the first error and never dereferences a nil
    field. *)
Theorem expected_validators_report_every_missing_field name f v fields :
  (name, f) ∈ cases → v ∈ validators f →
  (∀ callee x, returns (call_validator callee x)) →
  ∃ errs, exec_validator violates call_validator v fields = Ret errs ∧
          ∀ g w, MissingField g w ∈ v_checks v →
                 is_nil (get g fields) = true →
                 MissingFieldError w "body" ∈ errs.
Proof.
  intros Hcase Hv. apply guarded_checks_return.
  pose proof cases_guarded as H. rewrite forallb_forall in H.
  specialize (H (name, f) ltac:(by apply list_elem_of_In)). simpl in H.
  rewrite forallb_forall in H. apply H. by apply list_elem_of_In.
Qed.
End ExecFacts.

Lemma expected_constructors_after_validation_witness :
  returns (exec_constructor (λ _ v, Ret v)
    {| c_name := "NewMethodBPayloadType";
       c_body := Some "MethodBRequestBody";
       c_params := [];
       c_assigns := [
         Deref "A";
         Copy "B";
         Delegate false "C"
           "unmarshalAPayloadRequestBodyToServicemultiplemethodsAPayload" ] |}
    [("A", VScalar "value"); ("C", VStruct [])] []).
Proof.
  apply (expected_constructors_after_validation (λ _ _, false)
           (λ _ _, Ret []) (λ _ v, Ret v)
           "server-multiple-methods" MultipleMethodsServerTypesFile).
  - right; left.
  - right; left.
  - intros callee v _. by eexists.
  - reflexivity.
Defined.

Lemma expected_validators_report_every_missing_field_witness :
  ∃ errs,
    exec_validator (λ _ _, false) (λ _ _, Ret [])
      {| v_name := "ValidateMethodBRequestBody";
         v_body := "MethodBRequestBody";
         v_checks := [
           MissingField "A" "a";
           MissingField "C" "c";
           Constraint true true "A" "a" (Pattern "patterna");
           Constraint true true "B" "b" (Pattern "patternb");
           Nested "C" "ValidateAPayloadRequestBody" ] |} [] = Ret errs ∧
    ∀ g w,
      MissingField g w ∈ [
           MissingField "A" "a";
           MissingField "C" "c";
           Constraint true true "A" "a" (Pattern "patterna");
           Constraint true true "B" "b" (Pattern "patternb");
           Nested (F:=string) "C" "ValidateAPayloadRequestBody" ] →
      is_nil (get g []) = true →
      MissingFieldError w "body" ∈ errs.
Proof.
  apply (expected_validators_report_every_missing_field (λ _ _, false)
           (λ _ _, Ret []) "server-multiple-methods"
           MultipleMethodsServerTypesFile).
  - right; left.
  - right; left.
  - intros callee x. by eexists.
Defined.

End ExpectedFacts.
